(** * DeafHelper: camera OCR and speech notes

    A shallow embedding of [Deaf_helper.py] (class [DeafHelperApp]) and the
    properties of its configuration loader, its two recognition pipelines,
    its output sink and its audio toggle.

    The Python object [self] is a record whose late-bound attributes are
    options ([None] = the attribute does not exist yet, so reading it raises
    [AttributeError]).  Methods are computations in a state-and-exception
    monad over the object and the outside world (files, process log).  What
    the libraries and devices answer (camera, OCR engine, microphone, speech
    service, clock, file system failures) is an explicit environment
    argument of each method. *)

From Stdlib Require Import ZArith List String Ascii Lia DecimalString.
From stdpp Require Import gmap list.

(* ================================================================== *)
(** ** Python values *)
(* ================================================================== *)

Module Py.

(** A Python [str] is a sequence of Unicode code points; slicing and
    [strip] work on code points, not on bytes. *)
Definition str := list N.

(** Source literals are ASCII; [lit] reads one as a [str]. *)
Definition lit (s : string) : str := map N_of_ascii (list_ascii_of_string s).

Definition nl : str := [10%N].
Definition dquote : N := 34%N.
Definition backslash : N := 92%N.

(** [str.isspace] on one code point, the set [str.strip()] removes. *)
Definition isspace (c : N) : bool :=
  ((9 <=? c) && (c <=? 13) || (28 <=? c) && (c <=? 32)
   || (c =? 133) || (c =? 160) || (c =? 5760)
   || (8192 <=? c) && (c <=? 8202)
   || (c =? 8232) || (c =? 8233) || (c =? 8239) || (c =? 8287)
   || (c =? 12288))%N.

Fixpoint lstrip (s : str) : str :=
  match s with
  | c :: s' => if isspace c then lstrip s' else s
  | [] => []
  end.

Definition rstrip (s : str) : str := rev (lstrip (rev s)).

(** [s.strip()] *)
Definition strip (s : str) : str := rstrip (lstrip s).

(** Truth value of a [str]: [if text:] *)
Definition nonempty (s : str) : bool :=
  match s with [] => false | _ :: _ => true end.

(** Values that [json.load] can return and that end up in attributes. *)
#[warnings="-register-all"]
Inductive val :=
| VNone
| VBool (b : bool)
| VInt (z : Z)
| VStr (s : str)
| VList (l : list val)
| VDict (d : list (str * val)).

Definition str_eqb (a b : str) : bool := bool_decide (a = b).

(** [v == "literal"] for a [str] literal: only an equal [str] compares equal. *)
Definition eq_str (v : val) (s : str) : bool :=
  match v with VStr t => str_eqb t s | _ => false end.

(** Truth value of an arbitrary value: [if self.tts_enabled:] *)
Definition truthy (v : val) : bool :=
  match v with
  | VNone => false
  | VBool b => b
  | VInt z => negb (z =? 0)%Z
  | VStr s => nonempty s
  | VList l => match l with [] => false | _ => true end
  | VDict d => match d with [] => false | _ => true end
  end.

(** [d.get(key, default)] on the items of a dict. *)
Fixpoint dict_get (d : list (str * val)) (key : str) (default : val) : val :=
  match d with
  | [] => default
  | (k, v) :: d' => if str_eqb k key then v else dict_get d' key default
  end.

(** Decimal digits of an integer, as [str(int)] and [json] print them. *)
Definition dec (z : Z) : str := lit (NilZero.string_of_int (Z.to_int z)).

(** The last [w] decimal digits of [n], zero padded. *)
Fixpoint digits (w : nat) (n : N) : str :=
  match w with
  | O => []
  | S w' => digits w' (n / 10)%N ++ [(48 + n mod 10)%N]
  end.

(** [%0wd]: at least [w] digits. *)
Definition zpad (w : nat) (n : N) : str :=
  if (n <? 10 ^ N.of_nat w)%N then digits w n else dec (Z.of_N n).

(** *** Exceptions *)

Inductive exn_class :=
| AttributeError | ValueError | TypeError | OSError | JSONDecodeError
| ImportError | ModuleNotFoundError
| UnknownValueError | RequestError | WaitTimeoutError
| OtherException (name : string).

Record exn := Exn { exn_class_of : exn_class; exn_str : str }.

(** Handler clauses of the program. Every class above derives from
    [Exception]; [ModuleNotFoundError] derives from [ImportError]. *)
Inductive clause := ExceptException | ExceptImportError
                  | ExceptUnknownValueError | ExceptRequestError.

Definition catches (c : clause) (e : exn) : bool :=
  match c, exn_class_of e with
  | ExceptException, _ => true
  | ExceptImportError, (ImportError | ModuleNotFoundError) => true
  | ExceptUnknownValueError, UnknownValueError => true
  | ExceptRequestError, RequestError => true
  | _, _ => false
  end.

(** Reading an attribute that was never assigned. *)
Definition no_attribute (name : string) : exn :=
  Exn AttributeError
      (lit "'DeafHelperApp' object has no attribute '" ++ lit name ++ lit "'").

(** *** [datetime] and [strftime] *)

Record datetime := DateTime {
  year : N; month : N; day : N; hour : N; minute : N; second : N }.


(** [t.strftime("%Y-%m-%d %H:%M:%S")] *)
Definition strftime (t : datetime) : str :=
  zpad 4 (year t) ++ lit "-" ++ zpad 2 (month t) ++ lit "-" ++ zpad 2 (day t)
  ++ lit " " ++ zpad 2 (hour t) ++ lit ":" ++ zpad 2 (minute t)
  ++ lit ":" ++ zpad 2 (second t).

(** *** [json.dump(value, f, indent=4)] *)

Definition hex_digit (n : N) : N :=
  (if n <? 10 then 48 + n else 87 + n)%N.

(** [\uXXXX] for one UTF-16 unit. *)
Definition u_escape (u : N) : str :=
  [backslash; 117%N; hex_digit (u / 4096 mod 16); hex_digit (u / 256 mod 16);
   hex_digit (u / 16 mod 16); hex_digit (u mod 16)]%N.

(** One code point inside a JSON string, [ensure_ascii=True]. *)
Definition json_char (c : N) : str :=
  (if c =? 34 then [backslash; dquote]
   else if c =? 92 then [backslash; backslash]
   else if c =? 10 then [backslash; 110]
   else if c =? 13 then [backslash; 114]
   else if c =? 9 then [backslash; 116]
   else if c =? 8 then [backslash; 98]
   else if c =? 12 then [backslash; 102]
   else if (32 <=? c) && (c <=? 126) then [c]
   else if c <? 65536 then u_escape c
   else u_escape (55296 + (c - 65536) / 1024)
        ++ u_escape (56320 + (c - 65536) mod 1024))%N.

Definition json_string (s : str) : str :=
  [dquote] ++ concat (map json_char s) ++ [dquote].

Definition spaces (n : nat) : str := repeat 32%N n.

Fixpoint join (sep : str) (parts : list str) : str :=
  match parts with
  | [] => []
  | [p] => p
  | p :: ps => p ++ sep ++ join sep ps
  end.

Fixpoint json_dumps (ind : nat) (v : val) : str :=
  match v with
  | VNone => lit "null"
  | VBool true => lit "true"
  | VBool false => lit "false"
  | VInt z => dec z
  | VStr s => json_string s
  | VList [] => lit "[]"
  | VList l =>
      lit "[" ++ nl ++ spaces (ind + 4)
      ++ join (lit "," ++ nl ++ spaces (ind + 4)) (map (json_dumps (ind + 4)) l)
      ++ nl ++ spaces ind ++ lit "]"
  | VDict [] => lit "{}"
  | VDict d =>
      lit "{" ++ nl ++ spaces (ind + 4)
      ++ join (lit "," ++ nl ++ spaces (ind + 4))
           (map (fun kv => match kv with
                           | (k, x) => json_string k ++ lit ": "
                                       ++ json_dumps (ind + 4) x
                           end) d)
      ++ nl ++ spaces ind ++ lit "}"
  end.

End Py.

Import Py.

(* ================================================================== *)
(** ** The application object and the world around it *)
(* ================================================================== *)

(** A captured frame: [height] x [width] pixels of three [ubyte] channels,
    row major, in the camera's BGR order. *)
Record Frame := mkFrame {
  height : nat; width : nat; pixels : list (N * N * N) }.

(** A Kivy texture after [blit_buffer]. *)
Record Texture := mkTexture {
  tex_size : nat * nat; tex_colorfmt : string; tex_buffer : list N }.

(** [cv2.cvtColor(frame, cv2.COLOR_BGR2RGB)] *)
Definition cvtColor_BGR2RGB (f : Frame) : Frame :=
  mkFrame (height f) (width f)
          (map (fun p => match p with (b, g, r) => (r, g, b) end) (pixels f)).

(** [frame.flatten()] *)
Definition flatten (f : Frame) : list N :=
  flat_map (fun p => match p with (a, b, c) => [a; b; c] end) (pixels f).

(** The attributes of [self]. [camera = None] is Python's [None]; a
    [Some opened] is a [cv2.VideoCapture] object (truthy whether opened or
    not). Optional widgets do not exist before [build] creates them.
    [running_app] says whether [App.get_running_app()] is this object: Kivy
    keeps the application in the class attribute [App._running_app], which
    [App.__init__] sets and [App.stop] clears. *)
Record App := mkApp {
  language : val;
  notes_file : val;
  tts_enabled : val;
  camera_index : option val;
  camera : option bool;
  audio_thread : bool;
  running : bool;
  layout : option (list string);
  language_spinner : option str;
  camera_image : option (option Texture);
  result_label : option str;
  audio_btn : option str;
  exit_btn : option str;
  scheduled : bool;
  running_app : bool }.

Inductive level := DEBUG | INFO | WARNING | ERROR.

(** One call to the module's [logger]: level, format string, arguments. *)
Record log_record := LogRecord {
  lvl : level; fmt : string; args : list val }.

(** [logging.basicConfig(level=logging.INFO)]: what reaches the handlers. *)
Definition handled (r : log_record) : bool :=
  match lvl r with DEBUG => false | _ => true end.

Record State := mkState {
  self : App;
  files : gmap str str;
  log : list log_record }.

Definition set_language (v : val) (a : App) : App :=
  let 'mkApp _ nf t ci c th r ly ls im rl ab eb sc ra := a in
  mkApp v nf t ci c th r ly ls im rl ab eb sc ra.
Definition set_notes_file (v : val) (a : App) : App :=
  let 'mkApp l _ t ci c th r ly ls im rl ab eb sc ra := a in
  mkApp l v t ci c th r ly ls im rl ab eb sc ra.
Definition set_tts_enabled (v : val) (a : App) : App :=
  let 'mkApp l nf _ ci c th r ly ls im rl ab eb sc ra := a in
  mkApp l nf v ci c th r ly ls im rl ab eb sc ra.
Definition set_camera_index (v : option val) (a : App) : App :=
  let 'mkApp l nf t _ c th r ly ls im rl ab eb sc ra := a in
  mkApp l nf t v c th r ly ls im rl ab eb sc ra.
Definition set_camera (v : option bool) (a : App) : App :=
  let 'mkApp l nf t ci _ th r ly ls im rl ab eb sc ra := a in
  mkApp l nf t ci v th r ly ls im rl ab eb sc ra.
Definition set_audio_thread (v : bool) (a : App) : App :=
  let 'mkApp l nf t ci c _ r ly ls im rl ab eb sc ra := a in
  mkApp l nf t ci c v r ly ls im rl ab eb sc ra.
Definition set_running (v : bool) (a : App) : App :=
  let 'mkApp l nf t ci c th _ ly ls im rl ab eb sc ra := a in
  mkApp l nf t ci c th v ly ls im rl ab eb sc ra.
Definition set_layout (v : option (list string)) (a : App) : App :=
  let 'mkApp l nf t ci c th r _ ls im rl ab eb sc ra := a in
  mkApp l nf t ci c th r v ls im rl ab eb sc ra.
Definition set_language_spinner (v : option str) (a : App) : App :=
  let 'mkApp l nf t ci c th r ly _ im rl ab eb sc ra := a in
  mkApp l nf t ci c th r ly v im rl ab eb sc ra.
Definition set_camera_image (v : option (option Texture)) (a : App) : App :=
  let 'mkApp l nf t ci c th r ly ls _ rl ab eb sc ra := a in
  mkApp l nf t ci c th r ly ls v rl ab eb sc ra.
Definition set_result_label (v : option str) (a : App) : App :=
  let 'mkApp l nf t ci c th r ly ls im _ ab eb sc ra := a in
  mkApp l nf t ci c th r ly ls im v ab eb sc ra.
Definition set_audio_btn (v : option str) (a : App) : App :=
  let 'mkApp l nf t ci c th r ly ls im rl _ eb sc ra := a in
  mkApp l nf t ci c th r ly ls im rl v eb sc ra.
Definition set_exit_btn (v : option str) (a : App) : App :=
  let 'mkApp l nf t ci c th r ly ls im rl ab _ sc ra := a in
  mkApp l nf t ci c th r ly ls im rl ab v sc ra.
Definition set_scheduled (v : bool) (a : App) : App :=
  let 'mkApp l nf t ci c th r ly ls im rl ab eb _ ra := a in
  mkApp l nf t ci c th r ly ls im rl ab eb v ra.
Definition set_running_app (v : bool) (a : App) : App :=
  let 'mkApp l nf t ci c th r ly ls im rl ab eb sc _ := a in
  mkApp l nf t ci c th r ly ls im rl ab eb sc v.

(* ================================================================== *)
(** ** Methods as state-and-exception computations *)
(* ================================================================== *)

Inductive outcome (A : Type) :=
| Return (a : A)
| Raise (e : exn).
Arguments Return {A} a.
Arguments Raise {A} e.

(** A method body: it runs on a state and either returns or raises; the
    mutations made before a raise stay. *)
Definition M (A : Type) : Type := State -> outcome A * State.

Definition ret {A} (a : A) : M A := fun s => (Return a, s).

Definition raise {A} (e : exn) : M A := fun s => (Raise e, s).

Definition bind {A B} (m : M A) (k : A -> M B) : M B :=
  fun s => match m s with
           | (Return a, s') => k a s'
           | (Raise e, s') => (Raise e, s')
           end.

#[export] Instance M_ret : MRet M := @ret.
#[export] Instance M_bind : MBind M := fun A B k m => bind m k.

(** The result of a library call, returned or raised. *)
Definition lift {A} (r : outcome A) : M A := fun s => (r, s).

(** A call that returns nothing and may raise. *)
Definition may_raise (r : option exn) : M unit :=
  match r with Some e => raise e | None => ret tt end.

(** [try: body except C1 as e: h1 except C2 as e: h2 ...]: the first clause
    that matches handles the exception; what a handler raises escapes. *)
Fixpoint select (hs : list (clause * (exn -> M unit))) (e : exn)
  : option (exn -> M unit) :=
  match hs with
  | [] => None
  | (c, h) :: hs' => if catches c e then Some h else select hs' e
  end.

Definition try_except (body : M unit) (hs : list (clause * (exn -> M unit)))
  : M unit :=
  fun s => match body s with
           | (Return a, s') => (Return a, s')
           | (Raise e, s') =>
               match select hs e with
               | Some h => h e s'
               | None => (Raise e, s')
               end
           end.

(** [self.name], for an attribute that may not exist. *)
Definition attr {A} (name : string) (field : App -> option A) : M A :=
  fun s => match field (self s) with
           | Some x => (Return x, s)
           | None => (Raise (no_attribute name), s)
           end.

(** [self.name], for an attribute [__init__] always creates. *)
Definition get {A} (field : App -> A) : M A :=
  fun s => (Return (field (self s)), s).

(** [self.name = v] *)
Definition assign (f : App -> App) : M unit :=
  fun s => (Return tt, mkState (f (self s)) (files s) (log s)).

(** [logger.<level>(fmt, *args)] *)
Definition logger (l : level) (f : string) (a : list val) : M unit :=
  fun s => (Return tt, mkState (self s) (files s) (log s ++ [LogRecord l f a])).

(** The files on disk, read and replaced. *)
Definition get_files : M (gmap str str) := fun s => (Return (files s), s).

Definition put_files (fs : gmap str str) : M unit :=
  fun s => (Return tt, mkState (self s) fs (log s)).

(** [self.result_label.text] *)
Definition result_label_text : M str := attr "result_label" result_label.

(** [self.result_label.text = txt] *)
Definition set_result_label_text (txt : str) : M unit :=
  attr "result_label" result_label ;;
  assign (set_result_label (Some txt)).

(* ================================================================== *)
(** ** What the libraries, the devices and the file system answer *)
(* ================================================================== *)

(** During [load_config]: what [open(CONFIG_FILE, "r")] and [json.load]
    make of the file's text, and whether writing the default file fails. *)
Record config_env := mkConfigEnv {
  json_load : str -> outcome val;
  json_dump_error : option exn }.

(** During [__init__]: the configuration answers and what
    [__import__(module)] raises, if anything. *)
Record boot_env := mkBootEnv {
  boot_config : config_env;
  import_error : string -> option exn }.

(** During [save_note]: the clock, and whether the append raises. *)
Record note_env := mkNoteEnv {
  now : datetime;
  append_error : option exn }.

(** During one [update_camera]: the frame an opened camera delivers
    ([Return None] is [ret = False]), what Tesseract reads on a frame for a
    language code, and the answers to [save_note]. *)
Record tick_env := mkTickEnv {
  read : outcome (option Frame);
  image_to_string : Frame -> str -> outcome str;
  tick_note : note_env }.

(** What [tts.save(audio_file)] does: it stores the synthesized audio,
    or it raises, either before the file is opened ([None]) or with the file
    created and holding what had been written so far ([Some partial]). *)
Inductive save_result :=
| Saved (audio : str)
| SaveRaised (e : exn) (written : option str).

(** During one [play_tts]: whether [gTTS(text, lang)] raises, the clock
    [int(time.time())], what [tts.save] does for a text and a language,
    whether playback (mixer start, load, play, wait, quit) raises, and
    whether [os.remove] raises. *)
Record tts_env := mkTtsEnv {
  gtts_error : str -> str -> option exn;
  tts_time : N;
  tts_save : str -> str -> save_result;
  playback_error : option exn;
  remove_error : option exn }.

(** During one attempt of [audio_loop]: whether the microphone block
    raises, what the speech service answers for a language tag, the answers
    to [save_note], and the answers to [play_tts]. *)
Record audio_env := mkAudioEnv {
  listen_error : option exn;
  recognize_google : val -> outcome str;
  audio_note : note_env;
  tts : tts_env }.

(* ================================================================== *)
(** ** The program *)
(* ================================================================== *)

Definition CONFIG_FILE : str := lit "config.json".

Definition DEFAULT_CONFIG : list (str * val) :=
  [ (lit "camera_index", VInt 0);
    (lit "language", VStr (lit "am-ET"));
    (lit "notes_file", VStr (lit "notes.txt"));
    (lit "tts_enabled", VBool false) ].

(** [DEFAULT_CONFIG[key]], for the keys the program subscripts. *)
Definition DEFAULT (key : string) : val :=
  dict_get DEFAULT_CONFIG (lit key) VNone.

(** [config.get(key, default)]: only a dict has [get]. *)
Definition config_get (config : val) (key : string) (default : val) : M val :=
  match config with
  | VDict d => ret (dict_get d (lit key) default)
  | _ => raise (Exn AttributeError (lit "object has no attribute 'get'"))
  end.

(** [with open(path, "w") as f: json.dump(value, f, indent=4)] *)
Definition write_json (err : option exn) (path : str) (value : val) : M unit :=
  may_raise err ;;
  fs ← get_files;
  put_files (<[path := json_dumps 0 value]> fs).

(** [with open(path, "a", encoding="utf-8") as f: f.write(data)].
    A [str] path names a file; an [int] names an already open descriptor,
    whose target is no named file; anything else is a [TypeError]. *)
Definition append_text (err : option exn) (path : val) (data : str) : M unit :=
  match path with
  | VStr p =>
      may_raise err ;;
      fs ← get_files;
      put_files (<[p := default [] (fs !! p) ++ data]> fs)
  | VInt _ | VBool _ => may_raise err
  | _ => raise (Exn TypeError (lit "expected str, bytes or os.PathLike object"))
  end.

Definition load_config (env : config_env) : M unit :=
  try_except
    (fs ← get_files;
     match fs !! CONFIG_FILE with
       | Some content =>
           (config ← lift (json_load env content);
            v ← config_get config "language" (DEFAULT "language");
            assign (set_language v) ;;
            v ← config_get config "notes_file" (DEFAULT "notes_file");
            assign (set_notes_file v) ;;
            v ← config_get config "tts_enabled" (DEFAULT "tts_enabled");
            assign (set_tts_enabled v) ;;
            v ← config_get config "camera_index" (DEFAULT "camera_index");
            assign (set_camera_index (Some v)) ;;
            logger INFO "Configuration loaded: %s" [config])
       | None =>
           (write_json (json_dump_error env) CONFIG_FILE (VDict DEFAULT_CONFIG) ;;
            logger INFO "Default configuration created" [])
       end)
    [ (ExceptException, fun e =>
         logger ERROR "Config load error: %s" [VStr (exn_str e)] ;;
         set_result_label_text (lit "Config Error: " ++ exn_str e)) ].

Definition required_modules : list string :=
  [ "cv2"; "speech_recognition"; "pyaudio"; "pytesseract"; "gTTS"; "pygame" ]%string.

Fixpoint for_each {A} (l : list A) (body : A -> M unit) : M unit :=
  match l with
  | [] => ret tt
  | x :: l' => body x ;; for_each l' body
  end.

Definition check_dependencies (import_error : string -> option exn) : M unit :=
  for_each required_modules (fun module =>
    try_except
      (may_raise (import_error module))
      [ (ExceptImportError, fun _ =>
           logger ERROR "Missing dependency: %s" [VStr (lit module)] ;;
           set_result_label_text
             (lit "Error: Please install " ++ lit module ++ lit ".")) ]).

(** An object before [__init__] runs: every field below is assigned by
    [__init__] before anything reads it, or is absent. *)
Definition blank : App :=
  mkApp VNone VNone VNone None None false false None None None None None None
        false false.

(** [DeafHelperApp.__init__]; the call of [App.__init__] makes the object
    the running application. *)
Definition init (env : boot_env) : M unit :=
  assign (set_running_app true) ;;
  assign (set_language (DEFAULT "language")) ;;
  assign (set_notes_file (DEFAULT "notes_file")) ;;
  assign (set_tts_enabled (DEFAULT "tts_enabled")) ;;
  assign (set_camera None) ;;
  assign (set_audio_thread false) ;;
  assign (set_running false) ;;
  load_config (boot_config env) ;;
  check_dependencies (import_error env).

(** [start_camera]; [video_capture index] is what [cv2.VideoCapture(index)]
    does: it raises, or returns a handle that is opened or not. *)
Definition start_camera (video_capture : val -> outcome bool) : M unit :=
  try_except
    (index ← attr "camera_index" camera_index;
     handle ← lift (video_capture index);
     assign (set_camera (Some handle)) ;;
     if negb handle
     then raise (Exn ValueError (lit "Camera not available"))
     else logger INFO "Camera initialized on index %d" [index])
    [ (ExceptException, fun e =>
         logger ERROR "Camera init error: %s" [VStr (exn_str e)] ;;
         set_result_label_text (lit "Camera Error: " ++ exn_str e)) ].

Definition start_audio_thread : M unit := assign (set_audio_thread true).

Definition add_widget (name : string) : M unit :=
  children ← attr "layout" layout;
  assign (set_layout (Some (children ++ [name]))).

Definition build (video_capture : val -> outcome bool) : M unit :=
  assign (set_running true) ;;
  assign (set_layout (Some [])) ;;
  assign (set_language_spinner (Some (lit "Amharic"))) ;;
  assign (set_camera_image (Some None)) ;;
  start_camera video_capture ;;
  assign (set_result_label (Some [])) ;;
  assign (set_audio_btn (Some (lit "Start Audio"))) ;;
  assign (set_exit_btn (Some (lit " Exit"))) ;;
  add_widget "language_spinner" ;;
  add_widget "camera_image" ;;
  add_widget "result_label" ;;
  add_widget "audio_btn" ;;
  add_widget "exit_btn" ;;
  assign (set_scheduled true) ;;
  start_audio_thread.

Definition set_language_cb (text : str) : M unit :=
  assign (set_language
            (VStr (if str_eqb text (lit "Amharic")
                   then lit "am-ET" else lit "en-US"))) ;;
  lang ← get language;
  logger INFO "Language changed to %s" [lang].

(** The line [save_note] writes: [f"[{timestamp}] {source}: {text}\n"] *)
Definition note_line (t : datetime) (source text : str) : str :=
  lit "[" ++ strftime t ++ lit "] " ++ source ++ lit ": " ++ text ++ nl.

(** What both pipelines display: [f"<label>\n{text}\n\n{old[:200]}"] *)
Definition result_block (label text old : str) : str :=
  label ++ nl ++ text ++ nl ++ nl ++ take 200 old.

Definition save_note (env : note_env) (source text : str) : M unit :=
  try_except
    (path ← get notes_file;
     append_text (append_error env) path (note_line (now env) source text) ;;
     logger INFO "Note saved from %s: %s" [VStr source; VStr (take 50 text)])
    [ (ExceptException, fun e =>
         logger ERROR "Note save error: %s" [VStr (exn_str e)] ;;
         set_result_label_text (lit "Note Save Error: " ++ exn_str e)) ].

(** ["amh" if self.language == "am-ET" else "eng"] *)
Definition lang_code (language : val) : str :=
  if eq_str language (lit "am-ET") then lit "amh" else lit "eng".

(** ["am" if self.language == "am-ET" else "en"] *)
Definition tts_lang (language : val) : str :=
  if eq_str language (lit "am-ET") then lit "am" else lit "en".

(** The texture [update_camera] builds from a frame. *)
Definition render (frame : Frame) : Texture :=
  let frame := cvtColor_BGR2RGB frame in
  let h := height frame in
  let w := width frame in
  mkTexture (w, h) "rgb" (flatten frame).

(** [self.camera_image.texture = texture] *)
Definition set_camera_image_texture (t : Texture) : M unit :=
  attr "camera_image" camera_image ;;
  assign (set_camera_image (Some (Some t))).

(** [self.camera.read()]: a handle that is not opened delivers no frame. *)
Definition camera_read (handle : bool) (env : tick_env) : M (option Frame) :=
  if handle then lift (read env) else ret None.

Definition update_camera (env : tick_env) : M unit :=
  r ← get running;
  cam ← get camera;
    match r, cam with
    | true, Some handle =>
        try_except
          (captured ← camera_read handle env;
           match captured with
           | None => logger WARNING "Failed to capture frame" []
           | Some frame =>
               lang ← get language;
               raw ← lift (image_to_string env frame (lang_code lang));
               let text := strip raw in
               (if nonempty text
                then (save_note (tick_note env) (lit "Camera") text ;;
                      old ← result_label_text;
                      set_result_label_text
                        (result_block (lit "Camera Text:") text old))
                else ret tt) ;;
               set_camera_image_texture (render frame)
           end)
          [ (ExceptException, fun e =>
               logger ERROR "Camera update error: %s" [VStr (exn_str e)] ;;
               set_result_label_text (lit "Camera Error: " ++ exn_str e)) ]
    | _, _ => ret tt
    end.

Definition toggle_audio : M unit :=
  label ← attr "audio_btn" audio_btn;
  if str_eqb label (lit " Start Audio")
  then (assign (set_audio_btn (Some (lit " Stop Audio"))) ;;
        assign (set_running true))
  else (assign (set_audio_btn (Some (lit " Start Audio"))) ;;
        assign (set_running false)).

(** [f"tts_{int(time.time())}.mp3"] *)
Definition audio_file_name (t : N) : str :=
  lit "tts_" ++ dec (Z.of_N t) ++ lit ".mp3".

(** A file opened for writing holds [data] afterwards, whatever it held. *)
Definition write_file (path data : str) : M unit :=
  fs ← get_files;
  put_files (<[path := data]> fs).

(** [if os.path.exists(path): os.remove(path)] *)
Definition remove_if_exists (err : option exn) (path : str) : M unit :=
  fs ← get_files;
  match fs !! path with
  | Some _ => may_raise err ;; put_files (delete path fs)
  | None => ret tt
  end.

(** [play_tts]: the audio is saved to a file named after the clock, played
    to its end and the file removed; whatever raises on the way is logged,
    and the file stays if it had been created. *)
Definition play_tts (env : audio_env) (text : str) : M unit :=
  try_except
    (lang ← get language;
     may_raise (gtts_error (tts env) text (tts_lang lang)) ;;
     let audio_file := audio_file_name (tts_time (tts env)) in
     match tts_save (tts env) text (tts_lang lang) with
     | Saved audio => write_file audio_file audio
     | SaveRaised e written =>
         match written with
         | Some partial => write_file audio_file partial
         | None => ret tt
         end ;;
         raise e
     end ;;
     may_raise (playback_error (tts env)) ;;
     remove_if_exists (remove_error (tts env)) audio_file)
    [ (ExceptException, fun e =>
         logger ERROR "TTS error: %s" [VStr (exn_str e)]) ].

(** The [try] statement of [audio_loop], one listening attempt. *)
Definition listen_and_recognize (env : audio_env) : M unit :=
  try_except
    (may_raise (listen_error env) ;;
     lang ← get language;
     text ← lift (recognize_google env lang);
     (if nonempty text
      then (save_note (audio_note env) (lit "Audio") text ;;
            old ← result_label_text;
            set_result_label_text (result_block (lit "Audio Text:") text old) ;;
            tts ← get tts_enabled;
            if truthy tts then play_tts env text else ret tt)
      else ret tt) ;;
     logger INFO "Audio recognition successful: %s" [VStr text])
    [ (ExceptUnknownValueError, fun _ =>
         logger DEBUG "Audio not understood" []);
      (ExceptRequestError, fun e =>
         logger ERROR "Audio API error: %s" [VStr (exn_str e)] ;;
         set_result_label_text (lit "Audio Error: " ++ exn_str e));
      (ExceptException, fun e =>
         logger ERROR "Audio loop error: %s" [VStr (exn_str e)] ;;
         set_result_label_text (lit "Audio Error: " ++ exn_str e)) ].

(** One pass through the body of [while True]: sleep when the flag is off,
    otherwise one listening attempt. *)
Definition audio_iteration (env : audio_env) : M unit :=
  r ← get running;
  if negb r then ret tt else listen_and_recognize env.

(** [audio_loop] along the answers of its first iterations. The loop has no
    exit: it goes on to the next iteration whenever the body returns, and
    only an exception that escapes the body ends it. *)
Fixpoint audio_loop (envs : list audio_env) : M unit :=
  match envs with
  | [] => ret tt
  | env :: envs' => audio_iteration env ;; audio_loop envs'
  end.

(** [App.get_running_app().stop()]: on the running application, [stop]
    ends the event loop, and with it the timer, and clears
    [App._running_app]; once that is [None] the call raises. *)
Definition stop_running_app : M unit :=
  current ← get running_app;
  if (current : bool)
  then (assign (set_scheduled false) ;; assign (set_running_app false))
  else raise (Exn AttributeError
                  (lit "'NoneType' object has no attribute 'stop'")).

Definition stop_app : M unit :=
  assign (set_running false) ;;
  cam ← get camera;
  match cam with
  | Some _ => assign (set_camera (Some false))
  | None => ret tt
  end ;;
  logger INFO "Application stopped" [] ;;
  stop_running_app.

(** [DeafHelperApp().run()] up to the start of the event loop: the
    constructor, then Kivy's [App.run], which calls [self.load_config()],
    the method this class overrides, and then [self.build()]. *)
Definition main (env : boot_env) (video_capture : val -> outcome bool)
  : M unit :=
  init env ;; load_config (boot_config env) ;; build video_capture.

(** What [main] runs before [build]. *)
Definition prepare (env : boot_env) : M unit :=
  init env ;; load_config (boot_config env).

(** The process before [main]: nothing but the files on disk. *)
Definition start (fs : gmap str str) : State := mkState blank fs [].

(* ================================================================== *)
(** ** Observations used by the properties *)
(* ================================================================== *)

(** The NotesLog: the text of the file [self.notes_file] names. *)
Definition notes_log (s : State) : str :=
  match notes_file (self s) with
  | VStr p => default [] (files s !! p)
  | _ => []
  end.

(** The ResultsBuffer: the text the result widget shows. *)
Definition results_buffer (s : State) : option str := result_label (self s).

(** The frame on display. *)
Definition displayed (s : State) : option (option Texture) :=
  camera_image (self s).




(** The state with the running flag forced to [b]. *)
Definition with_running (b : bool) (s : State) : State :=
  mkState (set_running b (self s)) (files s) (log s).

(** *** Recognition events

    The program has no event object: a pipeline step produces a
    RecognitionEvent when it reaches its call of [save_note]. These two
    functions say, from the branch conditions of [update_camera] and
    [audio_loop], whether a step does so and with which source, text and
    time. *)

Inductive source := Camera | Audio.

Record RecognitionEvent := mkEvent {
  ev_source : source; ev_text : str; ev_time : datetime }.

(** The [source] argument of [save_note]. *)
Definition source_name (src : source) : str :=
  match src with Camera => lit "Camera" | Audio => lit "Audio" end.

(** The label of the displayed block. *)
Definition source_label (src : source) : str :=
  match src with Camera => lit "Camera Text:" | Audio => lit "Audio Text:" end.

Definition camera_event (env : tick_env) (s : State) : option RecognitionEvent :=
  match running (self s), camera (self s), read env with
  | true, Some true, Return (Some frame) =>
      match image_to_string env frame (lang_code (language (self s))) with
      | Return raw =>
          if nonempty (strip raw)
          then Some (mkEvent Camera (strip raw) (now (tick_note env)))
          else None
      | Raise _ => None
      end
  | _, _, _ => None
  end.

Definition audio_event (env : audio_env) (s : State) : option RecognitionEvent :=
  match running (self s), listen_error env,
        recognize_google env (language (self s)) with
  | true, None, Return text =>
      if nonempty text
      then Some (mkEvent Audio text (now (audio_note env)))
      else None
  | _, _, _ => None
  end.

(** The line of an event in the NotesLog, without its terminator. *)
Definition event_line (ev : RecognitionEvent) : str :=
  lit "[" ++ strftime (ev_time ev) ++ lit "] " ++ source_name (ev_source ev)
  ++ lit ": " ++ ev_text ev.



(** A recognized speech call raised [e]. *)
Definition recognition_raises (env : audio_env) (s : State) (e : exn) : Prop :=
  running (self s) = true /\ listen_error env = None /\
  recognize_google env (language (self s)) = Raise e.

(** An opened camera delivered [frame] and Tesseract read [raw] on it. *)
Definition ocr_capture (env : tick_env) (s : State) (frame : Frame) (raw : str)
  : Prop :=
  running (self s) = true /\ camera (self s) = Some true /\
  read env = Return (Some frame) /\
  image_to_string env frame (lang_code (language (self s))) = Return raw.

(** *** Invariants of the attributes *)

(** [P] on [self] survives [m], whether [m] returns or raises. *)
Definition stable {A} (P : App -> Prop) (m : M A) : Prop :=
  forall s, P (self s) -> P (self (snd (m s))).

(** The result widget has not been created. *)
Definition no_result_label (a : App) : Prop := result_label a = None.


(** *** What the output sink is expected to do with an event *)


(** The buffer is the block of [ev] followed by the first 200 characters of
    what it showed before. *)
Definition keeps_previous_context (ev : RecognitionEvent) (s s' : State)
  : Prop :=
  exists old,
    results_buffer s = Some old /\
    results_buffer s' =
      Some (result_block (source_label (ev_source ev)) (ev_text ev) old).

(** The text that follows the new block: the previous content when the note
    was saved, the error report of [save_note] when it was not. *)
Definition trailing_context (err : option exn) (old : str) : str :=
  match err with
  | None => old
  | Some e => lit "Note Save Error: " ++ exn_str e
  end.


(** The tick puts the captured frame on display whatever the flag says. *)
Definition renders_whatever_the_flag (env : tick_env) (s : State)
           (frame : Frame) : Prop :=
  forall flag : bool,
    displayed (snd (update_camera env (with_running flag s)))
    = Some (Some (render frame)).

(* ================================================================== *)
(** ** Scenarios *)
(* ================================================================== *)

Definition every_import_works (module : string) : option exn := None.

Definition camera_opens (index : val) : outcome bool := Return true.

Definition camera_stays_closed (index : val) : outcome bool := Return false.

(** A configuration document for English on camera 0. *)
Definition english_config : val :=
  VDict [ (lit "camera_index", VInt 0); (lit "language", VStr (lit "en-US")) ].

Definition english_disk : gmap str str :=
  {[ CONFIG_FILE := json_dumps 4 english_config ]}.

Definition reads_english : boot_env :=
  mkBootEnv (mkConfigEnv (fun _ => Return english_config) None)
            every_import_works.

(** A configuration file cut short after its opening brace. *)
Definition truncated_disk : gmap str str := {[ CONFIG_FILE := lit "{" ]}.

Definition parse_fails : boot_env :=
  mkBootEnv
    (mkConfigEnv
       (fun _ => Raise (Exn JSONDecodeError
                            (lit "Expecting property name enclosed in double quotes")))
       None)
    every_import_works.

(** The application built from [english_disk] with a working camera. *)
Definition english_session : State :=
  snd (main reads_english camera_opens (start english_disk)).

Definition noon : datetime := DateTime 2024 5 17 12 30 45.

Definition permission_denied : exn :=
  Exn OSError (lit "[Errno 13] Permission denied: 'notes.txt'").

Definition frame_1x2 : Frame := mkFrame 1 2 [(1, 2, 3); (4, 5, 6)]%N.

(** Tesseract reads [raw] with the English model and nothing otherwise. *)
Definition tesseract_reads (raw : str) (frame : Frame) (code : str)
  : outcome str :=
  if str_eqb code (lit "eng") then Return raw else Return [].

(** A tick on which the camera delivers [frame_1x2], Tesseract reads [raw]
    and the append to the notes file raises [err], if anything. *)
Definition tick_reading (raw : str) (err : option exn) : tick_env :=
  mkTickEnv (Return (Some frame_1x2)) (tesseract_reads raw) (mkNoteEnv noon err).

(** A synthesis that works: some audio is saved, played and removed. *)
Definition tts_works : tts_env :=
  mkTtsEnv (fun _ _ => None) 1715949045 (fun _ _ => Saved (lit "ID3")) None None.

(** A listening attempt to which the speech service answers [answer]. *)
Definition attempt_answered (answer : outcome str) : audio_env :=
  mkAudioEnv None (fun _ => answer) (mkNoteEnv noon None) tts_works.

Definition not_understood : exn := Exn UnknownValueError [].

Definition quota_exceeded : exn :=
  Exn RequestError (lit "recognition request failed: Forbidden").

Definition hello_event : RecognitionEvent := mkEvent Camera (lit "HELLO") noon.




(** [json.load] on the default document as [json.dump] writes it, and
    on nothing else. *)
Definition parses_default (content : str) : outcome val :=
  if str_eqb content (json_dumps 0 (VDict DEFAULT_CONFIG))
  then Return (VDict DEFAULT_CONFIG)
  else Raise (Exn JSONDecodeError (lit "Expecting value")).

(** The first start in a directory without a configuration file: the
    default file can be written and read back, and every import works. *)
Definition first_run : boot_env :=
  mkBootEnv (mkConfigEnv parses_default None) every_import_works.

(* ================================================================== *)
(** ** Further observations *)
(* ================================================================== *)

(** [self] after [super().__init__] and the six assignments of [__init__],
    before [load_config]. *)
Definition initialised : App :=
  mkApp (DEFAULT "language") (DEFAULT "notes_file") (DEFAULT "tts_enabled")
        None None false false None None None None None None false true.

(** The four attributes as [load_config] takes them from the items [d] of a
    configuration document. *)
Definition configured (d : list (str * val)) (a : App) : App :=
  set_camera_index
    (Some (dict_get d (lit "camera_index") (DEFAULT "camera_index")))
    (set_tts_enabled (dict_get d (lit "tts_enabled") (DEFAULT "tts_enabled"))
       (set_notes_file (dict_get d (lit "notes_file") (DEFAULT "notes_file"))
          (set_language (dict_get d (lit "language") (DEFAULT "language")) a))).

(** The keys [load_config] looks up. *)
Definition config_keys : list str :=
  [ lit "language"; lit "notes_file"; lit "tts_enabled"; lit "camera_index" ].

(** Every required module imports. *)
Definition imports_work (import_error : string -> option exn) : Prop :=
  forall module, In module required_modules -> import_error module = None.

(** The document the second [load_config], the one [App.run] makes, finds
    on disk: what the file held from the start, or the default document the
    first call has just written. *)
Definition document_at_run (env : config_env) (fs : gmap str str)
           (d : list (str * val)) : Prop :=
  match fs !! CONFIG_FILE with
  | Some content => json_load env content = Return (VDict d)
  | None =>
      json_dump_error env = None /\
      json_load env (json_dumps 0 (VDict DEFAULT_CONFIG)) = Return (VDict d)
  end.

(** The configuration loads to a JSON object both times, every required
    module imports and the configured camera opens. *)
Definition can_start (env : boot_env) (video_capture : val -> outcome bool)
           (fs : gmap str str) : Prop :=
  exists d,
    document_at_run (boot_config env) fs d /\
    imports_work (import_error env) /\
    video_capture (dict_get d (lit "camera_index") (DEFAULT "camera_index"))
    = Return true.

(** The body of the loop of [check_dependencies], for one module. *)
Definition check_module (import_error : string -> option exn)
           (module : string) : M unit :=
  try_except
    (may_raise (import_error module))
    [ (ExceptImportError, fun _ =>
         logger ERROR "Missing dependency: %s" [VStr (lit module)] ;;
         set_result_label_text
           (lit "Error: Please install " ++ lit module ++ lit ".")) ].

(** The result widget exists, as it does from [build] on. *)
Definition has_result_label (a : App) : Prop := result_label a <> None.

(** From [s] to [s'] the files outside [spare] only grew, and only the
    notes file did: the notes file setting is the same, every file outside
    [spare] that it does not name is as it was, and every file of [s]
    outside [spare] is still there with its old text as a prefix. *)
Definition grows_apart_from (spare : str -> Prop) (s s' : State) : Prop :=
  notes_file (self s') = notes_file (self s) /\
  (forall path, ~ spare path -> VStr path <> notes_file (self s) ->
                files s' !! path = files s !! path) /\
  (forall path old, ~ spare path -> files s !! path = Some old ->
                    exists more, files s' !! path = Some (old ++ more)).

(** The same for every file. *)
Definition grows (s s' : State) : Prop := grows_apart_from (fun _ => False) s s'.

(** [m] only lets the files outside [spare] grow, whether it returns or
    raises. *)
Definition appends_only {A} (spare : str -> Prop) (m : M A) : Prop :=
  forall s, grows_apart_from spare s (snd (m s)).

(** The temporary audio file of a listening attempt. *)
Definition audio_file (env : audio_env) : str :=
  audio_file_name (tts_time (tts env)).

(** The temporary audio files of a run of listening attempts. *)
Definition audio_files (envs : list audio_env) (path : str) : Prop :=
  exists env, In env envs /\ path = audio_file env.

(** The synthesis of this attempt cannot touch the file [path]: it is
    switched off, or its temporary file has another name. *)
Definition spares (env : audio_env) (s : State) (path : str) : Prop :=
  truthy (tts_enabled (self s)) = false \/ audio_file env <> path.

(** Two synthesis services that cannot be told apart by a caller that
    asks for the language [lang] only. *)
Definition same_voice (t t' : tts_env) (lang : str) : Prop :=
  tts_time t = tts_time t' /\
  playback_error t = playback_error t' /\
  remove_error t = remove_error t' /\
  (forall text, gtts_error t text lang = gtts_error t' text lang) /\
  (forall text, tts_save t text lang = tts_save t' text lang).

(** The language tag [set_language] stores for a selector text. *)
Definition selected_tag (text : str) : str :=
  if str_eqb text (lit "Amharic") then lit "am-ET" else lit "en-US".

(** The tick could not get a frame and Tesseract's text on it: the opened
    camera raised on [read], or Tesseract raised on the frame. *)
Definition capture_raises (env : tick_env) (s : State) (e : exn) : Prop :=
  read env = Raise e \/
  exists frame,
    read env = Return (Some frame) /\
    image_to_string env frame (lang_code (language (self s))) = Raise e.

(** What one [play_tts] leaves on disk and adds to the log, from the
    files [fs], for a text and a language: nothing when [gTTS] or the opening
    of the file raises; the file with what was written when [save] raises
    later; the file with the audio when playback or removal raises; no file
    when all went well. Every failure is one error record. *)
Definition tts_outcome (t : tts_env) (text lang : str) (fs : gmap str str)
  : gmap str str * list log_record :=
  let audio_file := audio_file_name (tts_time t) in
  let failed e := [LogRecord ERROR "TTS error: %s" [VStr (exn_str e)]] in
  match gtts_error t text lang with
  | Some e => (fs, failed e)
  | None =>
      match tts_save t text lang with
      | SaveRaised e None => (fs, failed e)
      | SaveRaised e (Some partial) => (<[audio_file := partial]> fs, failed e)
      | Saved audio =>
          match playback_error t, remove_error t with
          | Some e, _ => (<[audio_file := audio]> fs, failed e)
          | None, Some e => (<[audio_file := audio]> fs, failed e)
          | None, None => (delete audio_file fs, [])
          end
      end
  end.

(** The same after a recorded utterance: [play_tts] runs only when
    [tts_enabled] is truthy, in the language of the current setting. *)
Definition after_tts (env : audio_env) (s : State) (text : str)
           (fs : gmap str str) : gmap str str * list log_record :=
  if truthy (tts_enabled (self s))
  then tts_outcome (tts env) text (tts_lang (language (self s))) fs
  else (fs, []).

(** The flag and the label of the audio button agree: on with
    [" Stop Audio"], off with [" Start Audio"]. *)
Definition in_step (a : App) : Prop :=
  (running a = true /\ audio_btn a = Some (lit " Stop Audio")) \/
  (running a = false /\ audio_btn a = Some (lit " Start Audio")).

(** The microphone block raised [e], an exception that is neither of the two
    recognition errors. *)
Definition microphone_fails (env : audio_env) (s : State) (e : exn) : Prop :=
  running (self s) = true /\ listen_error env = Some e /\
  exn_class_of e <> UnknownValueError /\ exn_class_of e <> RequestError.

(** A synthesis whose request fails after the audio file was opened. *)
Definition tts_unreachable : tts_env :=
  mkTtsEnv (fun _ _ => None) 1715949045
           (fun _ _ => SaveRaised (Exn (OtherException "gTTSError")
                                       (lit "Failed to connect"))
                                  (Some []))
           None None.

(** The application of [english_session] with TTS switched on. *)
Definition speaking_session : State :=
  mkState (set_tts_enabled (VBool true) (self english_session))
          (files english_session) (log english_session).

(** A state with one more file on disk. *)
Definition with_file (path data : str) (s : State) : State :=
  mkState (self s) (<[path := data]> (files s)) (log s).


(** [load_config] meets a failure: the file exists and cannot be read or
    parsed, or holds a document that is not a JSON object, or does not
    exist and the default file cannot be written. *)
Definition config_fails (env : config_env) (fs : gmap str str) : Prop :=
  match fs !! CONFIG_FILE with
  | Some content =>
      match json_load env content with
      | Raise _ => True
      | Return (VDict _) => False
      | Return _ => True
      end
  | None => json_dump_error env <> None
  end.

(** A first start in a directory where nothing can be written. *)
Definition read_only_directory : boot_env :=
  mkBootEnv (mkConfigEnv (fun _ => Return VNone) (Some permission_denied))
            every_import_works.
(* ================================================================== *)
(** * Properties *)
(* ================================================================== *)

(* ================================================================== *)
(** ** Running the monad *)
(* ================================================================== *)

Ltac run :=
  repeat (progress (unfold mbind, M_bind, bind, ret, raise, lift, may_raise, get,
                    attr, assign, logger, try_except, get_files, put_files,
                    result_label_text, set_result_label_text,
                    set_camera_image_texture in *; simpl in *)).

(** *** Timestamps *)













(** *** [save_note] *)

Lemma save_note_ok (env : note_env) (source text p : str) (s : State) :
  notes_file (self s) = VStr p ->
  append_error env = None ->
  save_note env source text s =
    (Return tt,
     mkState (self s)
             (<[p := default [] (files s !! p) ++ note_line (now env) source text]>
                (files s))
             (log s ++ [LogRecord INFO "Note saved from %s: %s"
                                  [VStr source; VStr (take 50 text)]])).
Proof.
  intros Hp Hok. unfold save_note, append_text. run.
  rewrite Hp, Hok. reflexivity.
Qed.

Lemma save_note_error (env : note_env) (source text p old : str) (s : State)
      (e : exn) :
  notes_file (self s) = VStr p ->
  append_error env = Some e ->
  result_label (self s) = Some old ->
  save_note env source text s =
    (Return tt,
     mkState (set_result_label (Some (lit "Note Save Error: " ++ exn_str e))
                               (self s))
             (files s)
             (log s ++ [LogRecord ERROR "Note save error: %s" [VStr (exn_str e)]])).
Proof.
  intros Hp Herr Hold. unfold save_note, append_text. run.
  rewrite Hp, Herr. simpl. rewrite Hold. reflexivity.
Qed.

(** [save_note] never raises once the result widget exists. *)
Lemma save_note_returns (env : note_env) (source text old : str) (s : State) :
  result_label (self s) = Some old ->
  exists s', save_note env source text s = (Return tt, s').
Proof.
  intros Hold. unfold save_note, append_text. run.
  destruct (notes_file (self s)); simpl; rewrite ?Hold; eauto;
    destruct (append_error env); simpl; rewrite ?Hold; eauto.
Qed.

Lemma notes_log_appended (s : State) (p data : str) (a : App) (lg : list log_record) :
  notes_file (self s) = VStr p ->
  notes_file a = VStr p ->
  notes_log (mkState a (<[p := default [] (files s !! p) ++ data]> (files s)) lg)
  = notes_log s ++ data.
Proof.
  intros Hp Ha. unfold notes_log. simpl. rewrite Hp, Ha.
  now rewrite lookup_insert_eq.
Qed.

(** *** [update_camera] *)

Lemma set_result_label_notes_file v a :
  notes_file (set_result_label v a) = notes_file a.
Proof. now destruct a. Qed.

Lemma update_camera_records (env : tick_env) (s : State) (frame : Frame)
      (raw p old : str) (img : option Texture) :
  ocr_capture env s frame raw ->
  nonempty (strip raw) = true ->
  notes_file (self s) = VStr p ->
  append_error (tick_note env) = None ->
  result_label (self s) = Some old ->
  camera_image (self s) = Some img ->
  update_camera env s =
    (Return tt,
     mkState
       (set_camera_image (Some (Some (render frame)))
          (set_result_label
             (Some (result_block (lit "Camera Text:") (strip raw) old)) (self s)))
       (<[p := default [] (files s !! p)
               ++ note_line (now (tick_note env)) (lit "Camera") (strip raw)]>
          (files s))
       (log s ++ [LogRecord INFO "Note saved from %s: %s"
                            [VStr (lit "Camera"); VStr (take 50 (strip raw))]])).
Proof.
  intros (Hrun & Hcam & Hread & Hocr) Hne Hp Hok Hold Himg.
  unfold update_camera. run. rewrite Hrun, Hcam. unfold camera_read. run.
  rewrite Hread. simpl. rewrite Hocr. simpl. rewrite Hne.
  rewrite (save_note_ok _ _ _ p) by assumption. simpl.
  rewrite Hold. simpl.
  destruct (self s); simpl in *. subst. reflexivity.
Qed.

Lemma update_camera_note_error (env : tick_env) (s : State) (frame : Frame)
      (raw p old : str) (img : option Texture) (e : exn) :
  ocr_capture env s frame raw ->
  nonempty (strip raw) = true ->
  notes_file (self s) = VStr p ->
  append_error (tick_note env) = Some e ->
  result_label (self s) = Some old ->
  camera_image (self s) = Some img ->
  update_camera env s =
    (Return tt,
     mkState
       (set_camera_image (Some (Some (render frame)))
          (set_result_label
             (Some (result_block (lit "Camera Text:") (strip raw)
                                 (lit "Note Save Error: " ++ exn_str e)))
             (self s)))
       (files s)
       (log s ++ [LogRecord ERROR "Note save error: %s" [VStr (exn_str e)]])).
Proof.
  intros (Hrun & Hcam & Hread & Hocr) Hne Hp Herr Hold Himg.
  unfold update_camera. run. rewrite Hrun, Hcam. unfold camera_read. run.
  rewrite Hread. simpl. rewrite Hocr. simpl. rewrite Hne.
  rewrite (save_note_error _ _ _ p old _ e) by assumption. simpl.
  destruct (self s); simpl in *. subst. reflexivity.
Qed.

Lemma update_camera_blank (env : tick_env) (s : State) (frame : Frame)
      (raw : str) (img : option Texture) :
  ocr_capture env s frame raw ->
  strip raw = [] ->
  camera_image (self s) = Some img ->
  update_camera env s =
    (Return tt,
     mkState (set_camera_image (Some (Some (render frame))) (self s))
             (files s) (log s)).
Proof.
  intros (Hrun & Hcam & Hread & Hocr) Hempty Himg.
  unfold update_camera. run. rewrite Hrun, Hcam. unfold camera_read. run.
  rewrite Hread. simpl. rewrite Hocr. simpl. rewrite Hempty. simpl.
  rewrite Himg. reflexivity.
Qed.

Lemma update_camera_paused (env : tick_env) (s : State) :
  running (self s) = false -> update_camera env s = (Return tt, s).
Proof. intros H. unfold update_camera. run. now rewrite H. Qed.

Lemma audio_iteration_paused (env : audio_env) (s : State) :
  running (self s) = false -> audio_iteration env s = (Return tt, s).
Proof. intros H. unfold audio_iteration. run. now rewrite H. Qed.

Lemma audio_iteration_running (env : audio_env) (s : State) :
  running (self s) = true ->
  audio_iteration env s = listen_and_recognize env s.
Proof. intros H. unfold audio_iteration. run. now rewrite H. Qed.

(** The loop moves on after every iteration that returns. *)
Lemma audio_loop_next (env : audio_env) (rest : list audio_env) (s s' : State) :
  audio_iteration env s = (Return tt, s') ->
  audio_loop (env :: rest) s = audio_loop rest s'.
Proof. intros H. cbn [audio_loop]. run. now rewrite H. Qed.

(** *** [audio_loop] *)

Lemma play_tts_effect (env : audio_env) (text : str) (s : State) :
  play_tts env text s =
    (Return tt,
     mkState (self s)
             (fst (tts_outcome (tts env) text (tts_lang (language (self s)))
                               (files s)))
             (log s ++ snd (tts_outcome (tts env) text
                                        (tts_lang (language (self s)))
                                        (files s)))).
Proof.
  unfold play_tts, tts_outcome, write_file, remove_if_exists. run.
  destruct s as [a fs lg]; simpl.
  destruct (gtts_error (tts env) text (tts_lang (language a))) as [e|];
    simpl; [reflexivity|].
  destruct (tts_save (tts env) text (tts_lang (language a)))
    as [audio|e [partial|]]; simpl; try reflexivity.
  destruct (playback_error (tts env)) as [e|]; simpl; [reflexivity|].
  rewrite lookup_insert_eq.
  destruct (remove_error (tts env)) as [e|]; simpl; [reflexivity|].
  rewrite delete_insert_eq. rewrite app_nil_r. reflexivity.
Qed.

Lemma listen_records (env : audio_env) (s : State) (text p old : str) :
  running (self s) = true ->
  listen_error env = None ->
  recognize_google env (language (self s)) = Return text ->
  nonempty text = true ->
  notes_file (self s) = VStr p ->
  append_error (audio_note env) = None ->
  result_label (self s) = Some old ->
  audio_iteration env s =
    (Return tt,
     mkState
       (set_result_label (Some (result_block (lit "Audio Text:") text old))
                         (self s))
       (fst (after_tts env s text
               (<[p := default [] (files s !! p)
                       ++ note_line (now (audio_note env)) (lit "Audio") text]>
                  (files s))))
       (log s
        ++ [LogRecord INFO "Note saved from %s: %s"
                      [VStr (lit "Audio"); VStr (take 50 text)]]
        ++ snd (after_tts env s text
                  (<[p := default [] (files s !! p)
                          ++ note_line (now (audio_note env)) (lit "Audio") text]>
                     (files s)))
        ++ [LogRecord INFO "Audio recognition successful: %s" [VStr text]])).
Proof.
  intros Hrun Hmic Hrec Hne Hp Hok Hold.
  rewrite audio_iteration_running by assumption.
  unfold listen_and_recognize, after_tts. run. rewrite Hmic. simpl.
  rewrite Hrec. simpl. rewrite Hne.
  rewrite (save_note_ok _ _ _ p) by assumption. simpl.
  repeat (rewrite Hold; simpl).
  destruct s as [a fs lg0]; destruct a; simpl in *. subst.
  destruct (truthy _); [rewrite play_tts_effect|];
    simpl; rewrite <- ?app_assoc; reflexivity.
Qed.

Lemma listen_note_error (env : audio_env) (s : State) (text p old : str) (e : exn) :
  running (self s) = true ->
  listen_error env = None ->
  recognize_google env (language (self s)) = Return text ->
  nonempty text = true ->
  notes_file (self s) = VStr p ->
  append_error (audio_note env) = Some e ->
  result_label (self s) = Some old ->
  exists lg,
    audio_iteration env s =
      (Return tt,
       mkState
         (set_result_label
            (Some (result_block (lit "Audio Text:") text
                                (lit "Note Save Error: " ++ exn_str e)))
            (self s))
         (fst (after_tts env s text (files s)))
         (log s ++ lg)).
Proof.
  intros Hrun Hmic Hrec Hne Hp Herr Hold.
  rewrite audio_iteration_running by assumption.
  unfold listen_and_recognize, after_tts. run. rewrite Hmic. simpl.
  rewrite Hrec. simpl. rewrite Hne.
  rewrite (save_note_error _ _ _ p old _ e) by assumption. simpl.
  destruct s as [a fs lg0]; destruct a; simpl in *. subst.
  destruct (truthy _); [rewrite play_tts_effect|];
    simpl; rewrite <- ?app_assoc; eexists; reflexivity.
Qed.

(** *** Invariants: which attributes a method can change *)

Section Stable.
Context (P : App -> Prop).

Lemma stable_ret {A} (a : A) : stable P (ret a).
Proof. intros s H. exact H. Qed.

Lemma stable_raise {A} (e : exn) : stable P (@raise A e).
Proof. intros s H. exact H. Qed.

Lemma stable_lift {A} (r : outcome A) : stable P (lift r).
Proof. intros s H. exact H. Qed.

Lemma stable_may_raise (r : option exn) : stable P (may_raise r).
Proof. intros s H. now destruct r. Qed.

Lemma stable_get {B} (g : App -> B) : stable P (get g).
Proof. intros s H. exact H. Qed.

Lemma stable_attr {B} (name : string) (g : App -> option B) :
  stable P (attr name g).
Proof. intros s H. unfold attr. now destruct (g (self s)). Qed.

Lemma stable_logger l fm a : stable P (logger l fm a).
Proof. intros s H. exact H. Qed.

Lemma stable_get_files : stable P get_files.
Proof. intros s H. exact H. Qed.

Lemma stable_put_files fs : stable P (put_files fs).
Proof. intros s H. exact H. Qed.

Lemma stable_assign (g : App -> App) :
  (forall a, P a -> P (g a)) -> stable P (assign g).
Proof. intros Hg s H. apply Hg, H. Qed.

Lemma stable_bind {A B} (m : M A) (k : A -> M B) :
  stable P m -> (forall a, stable P (k a)) -> stable P (m ≫= k).
Proof.
  intros Hm Hk s H. unfold mbind, M_bind, bind.
  specialize (Hm s H). destruct (m s) as [[a|e] s1]; simpl in *.
  - now apply Hk.
  - exact Hm.
Qed.

(** The same, from one state on. *)
Lemma holds_after_bind {A B} (m : M A) (k : A -> M B) (s : State) :
  P (self (snd (m s))) -> (forall a, stable P (k a)) ->
  P (self (snd ((m ≫= k) s))).
Proof.
  intros Hm Hk. unfold mbind, M_bind, bind.
  destruct (m s) as [[a|e] s1]; simpl in *.
  - now apply Hk.
  - exact Hm.
Qed.

Lemma stable_try (body : M unit) (hs : list (clause * (exn -> M unit))) :
  stable P body ->
  Forall (fun ch => forall e, stable P (snd ch e)) hs ->
  stable P (try_except body hs).
Proof.
  intros Hb Hh s H. unfold try_except.
  specialize (Hb s H). destruct (body s) as [[a|e] s1]; simpl in *; [exact Hb|].
  assert (Hsel : forall h, select hs e = Some h -> stable P (h e)).
  { clear -Hh. induction Hh as [|[c h0] hs H _ IH]; simpl; [discriminate|].
    intros h. destruct (catches c e); [|apply IH].
    intros [= <-]. apply H. }
  destruct (select hs e) as [h|] eqn:E; simpl; [|exact Hb].
  now apply (Hsel h eq_refl).
Qed.

Lemma stable_for_each {A} (l : list A) (body : A -> M unit) :
  (forall x, stable P (body x)) -> stable P (for_each l body).
Proof.
  intros H. induction l as [|x l IH]; simpl.
  - apply stable_ret.
  - apply stable_bind; [apply H | intros _; exact IH].
Qed.
End Stable.

(** Without a result widget, reporting an error on it raises and changes
    nothing. *)
Lemma report_without_label (txt : str) :
  stable no_result_label (set_result_label_text txt).
Proof.
  intros s H. unfold set_result_label_text, no_result_label in *. run.
  now rewrite H.
Qed.

Ltac invariant_step :=
  lazymatch goal with
  | |- stable ?P (fun s => ?m s) => change (stable P m)
  | |- stable _ (_ ≫= _) => apply stable_bind; [|intros ?]
  | |- stable _ (ret _) => apply stable_ret
  | |- stable _ (raise _) => apply stable_raise
  | |- stable _ (lift _) => apply stable_lift
  | |- stable _ (may_raise _) => apply stable_may_raise
  | |- stable _ (get _) => apply stable_get
  | |- stable _ (attr _ _) => apply stable_attr
  | |- stable _ (logger _ _ _) => apply stable_logger
  | |- stable _ get_files => apply stable_get_files
  | |- stable _ (put_files _) => apply stable_put_files
  | |- stable _ (assign _) => apply stable_assign; intros [] ?; assumption
  | |- stable _ (try_except _ _) =>
      apply stable_try; [|repeat constructor; intros ?; simpl]
  | |- stable _ (for_each _ _) => apply stable_for_each; intros ?
  | |- stable _ (set_result_label_text _) =>
      first [ apply report_without_label | unfold set_result_label_text ]
  | |- stable _ (match ?x with _ => _ end) => destruct x
  | |- stable _ (if ?x then _ else _) => destruct x
  | |- stable _ (save_note _ _ _) => unfold save_note
  | |- stable _ (append_text _ _ _) => unfold append_text
  | |- stable _ (write_json _ _ _) => unfold write_json
  | |- stable _ (config_get _ _ _) => unfold config_get
  | |- stable _ result_label_text => unfold result_label_text
  | |- stable _ (set_camera_image_texture _) => unfold set_camera_image_texture
  | |- stable _ (camera_read _ _) => unfold camera_read
  | |- stable _ (play_tts _ _) => unfold play_tts; cbv zeta
  | |- stable _ (write_file _ _) => unfold write_file
  | |- stable _ (remove_if_exists _ _) => unfold remove_if_exists
  | |- stable _ stop_running_app => unfold stop_running_app
  | |- stable _ (load_config _) => unfold load_config
  | |- stable _ (check_dependencies _) => unfold check_dependencies
  | |- stable _ (listen_and_recognize _) => unfold listen_and_recognize
  | |- stable _ (start_camera _) => unfold start_camera
  | |- stable _ start_audio_thread => unfold start_audio_thread
  | |- stable _ (add_widget _) => unfold add_widget
  end.

Ltac invariant := repeat invariant_step.

(** Neither pipeline writes the running flag. *)
Lemma update_camera_keeps_running env b :
  stable (fun a => running a = b) (update_camera env).
Proof. unfold update_camera. invariant. Qed.

Lemma audio_iteration_keeps_running env b :
  stable (fun a => running a = b) (audio_iteration env).
Proof. unfold audio_iteration, listen_and_recognize. invariant. Qed.

(** [__init__] creates no result widget. *)
Lemma init_creates_no_result_label env : stable no_result_label (init env).
Proof. unfold init, load_config, check_dependencies. invariant. Qed.

Lemma start_camera_creates_no_result_label vc :
  stable no_result_label (start_camera vc).
Proof. unfold start_camera. invariant. Qed.

(** The texture of a frame has the frame's width and height, the [rgb]
    format, and the bytes of the pixels in row-major order with the first
    and third channel exchanged. *)
Lemma render_is_rgb_texture (frame : Frame) :
  render frame =
    mkTexture (width frame, height frame) "rgb"
              (flat_map (fun px => match px with (b, g, r) => [r; g; b] end)
                        (pixels frame)).
Proof.
  unfold render, flatten, cvtColor_BGR2RGB. cbn. f_equal.
  induction (pixels frame) as [|[[b g] r] rest IH]; [reflexivity|].
  cbn. now rewrite IH.
Qed.

(** A tick on which Tesseract raises leaves the display as it was. *)
Lemma update_camera_ocr_raises_keeps_display (env : tick_env) (s : State)
      (frame : Frame) (e : exn) (old : str) :
  running (self s) = true ->
  camera (self s) = Some true ->
  read env = Return (Some frame) ->
  results_buffer s = Some old ->
  image_to_string env frame (lang_code (language (self s))) = Raise e ->
  fst (update_camera env s) = Return tt /\
  displayed (snd (update_camera env s)) = displayed s.
Proof.
  intros Hrun Hcam Hread Hold Hocr. unfold results_buffer in Hold.
  unfold update_camera, camera_read, displayed. run. rewrite Hrun, Hcam.
  rewrite Hread. simpl. rewrite Hocr. simpl. rewrite Hold. simpl.
  split; [reflexivity|]. now destruct (self s).
Qed.

(* ================================================================== *)
(** ** The OCR pipeline on a tick without text *)
(* ================================================================== *)

(** C7. When Tesseract's text on a captured frame strips to the empty
    string, the tick produces no RecognitionEvent, leaves the notes file,
    every other file, the results buffer and the process log as they were,
    and still puts the captured frame on display: the image widget gets an
    [rgb] texture of the frame's width and height whose buffer is the
    frame's pixels in row-major order, each BGR triple turned into RGB. *)
Theorem blank_capture_only_refreshes_frame
        (env : tick_env) (s : State) (frame : Frame) (raw : str)
        (img : option Texture) :
  ocr_capture env s frame raw ->
  strip raw = [] ->
  displayed s = Some img ->
  fst (update_camera env s) = Return tt /\
  camera_event env s = None /\
  notes_log (snd (update_camera env s)) = notes_log s /\
  files (snd (update_camera env s)) = files s /\
  results_buffer (snd (update_camera env s)) = results_buffer s /\
  log (snd (update_camera env s)) = log s /\
  displayed (snd (update_camera env s)) =
    Some (Some (mkTexture
                  (width frame, height frame) "rgb"
                  (flat_map (fun px => match px with (b, g, r) => [r; g; b] end)
                            (pixels frame)))).
Proof.
  intros Hcap Hblank Himg.
  rewrite (update_camera_blank env s frame raw img Hcap Hblank Himg).
  rewrite render_is_rgb_texture.
  destruct Hcap as (Hrun & Hcam & Hread & Hocr).
  unfold camera_event, notes_log, results_buffer, displayed.
  rewrite Hrun, Hcam, Hread, Hocr, Hblank. simpl.
  destruct (self s); simpl. repeat split; reflexivity.
Qed.

Lemma blank_capture_only_refreshes_frame_witness :
  notes_log (snd (update_camera (tick_reading (lit "  " ++ nl) None) english_session))
  = notes_log english_session /\
  displayed (snd (update_camera (tick_reading (lit "  " ++ nl) None) english_session))
  = Some (Some (mkTexture (2, 1) "rgb" [3; 2; 1; 6; 5; 4]%N)).
Proof.
  destruct (blank_capture_only_refreshes_frame
              (tick_reading (lit "  " ++ nl) None) english_session frame_1x2
              (lit "  " ++ nl) None)
    as (_ & _ & Hnotes & _ & _ & _ & Hshow).
  - repeat split; reflexivity.
  - reflexivity.
  - reflexivity.
  - split; [exact Hnotes | exact Hshow].
Defined.

(* ================================================================== *)
(** ** The speech loop on recognition errors *)
(* ================================================================== *)

(** C8. When the recognition call raises [UnknownValueError], the iteration
    returns and the loop goes on with the next one; no RecognitionEvent is
    produced, the object (results buffer included) and every file are
    unchanged, and the only trace is one [DEBUG] call to the logger, which
    the [INFO] threshold keeps from the handlers. *)
Theorem not_understood_is_silent (env : audio_env) (s : State) (e : exn) :
  recognition_raises env s e ->
  exn_class_of e = UnknownValueError ->
  exists s',
    audio_iteration env s = (Return tt, s') /\
    (forall rest, audio_loop (env :: rest) s = audio_loop rest s') /\
    audio_event env s = None /\
    self s' = self s /\
    files s' = files s /\
    notes_log s' = notes_log s /\
    results_buffer s' = results_buffer s /\
    log s' = log s ++ [LogRecord DEBUG "Audio not understood" []] /\
    filter handled (log s') = filter handled (log s).
Proof.
  intros (Hrun & Hmic & Hrec) Hcls.
  set (s' := mkState (self s) (files s)
                     (log s ++ [LogRecord DEBUG "Audio not understood" []])).
  assert (H : audio_iteration env s = (Return tt, s')).
  { rewrite audio_iteration_running by assumption.
    unfold listen_and_recognize. run. rewrite Hmic. simpl. rewrite Hrec. simpl.
    unfold catches. rewrite Hcls. reflexivity. }
  exists s'. split; [exact H|]. split; [intros rest; now apply audio_loop_next|].
  unfold audio_event. rewrite Hrun, Hmic, Hrec.
  repeat split; try reflexivity.
  subst s'. cbn [log]. rewrite filter_app. simpl. apply app_nil_r.
Qed.

Lemma not_understood_is_silent_witness :
  exists s',
    audio_iteration (attempt_answered (Raise not_understood)) english_session
    = (Return tt, s') /\
    results_buffer s' = results_buffer english_session.
Proof.
  destruct (not_understood_is_silent (attempt_answered (Raise not_understood))
                                     english_session not_understood)
    as (s' & Hrun & _ & _ & _ & _ & _ & Hbuf & _).
  - repeat split; reflexivity.
  - reflexivity.
  - exists s'. split; [exact Hrun | exact Hbuf].
Defined.

(** C9. When the recognition call raises [RequestError], the results widget
    shows ["Audio Error: "] followed by the error text, an [ERROR] record is
    logged, no RecognitionEvent is produced, no file changes, and the
    iteration returns, so that the loop goes on with the next one. *)
Theorem service_error_is_shown (env : audio_env) (s : State) (e : exn)
        (old : str) :
  recognition_raises env s e ->
  exn_class_of e = RequestError ->
  results_buffer s = Some old ->
  exists s',
    audio_iteration env s = (Return tt, s') /\
    (forall rest, audio_loop (env :: rest) s = audio_loop rest s') /\
    audio_event env s = None /\
    files s' = files s /\
    notes_log s' = notes_log s /\
    results_buffer s' = Some (lit "Audio Error: " ++ exn_str e) /\
    log s' = log s ++ [LogRecord ERROR "Audio API error: %s" [VStr (exn_str e)]].
Proof.
  intros (Hrun & Hmic & Hrec) Hcls Hold. unfold results_buffer in Hold.
  set (s' := mkState (set_result_label (Some (lit "Audio Error: " ++ exn_str e))
                                       (self s))
                     (files s)
                     (log s ++ [LogRecord ERROR "Audio API error: %s"
                                          [VStr (exn_str e)]])).
  assert (H : audio_iteration env s = (Return tt, s')).
  { rewrite audio_iteration_running by assumption.
    unfold listen_and_recognize. run. rewrite Hmic. simpl. rewrite Hrec. simpl.
    unfold catches. rewrite Hcls. simpl. rewrite Hold. reflexivity. }
  exists s'. split; [exact H|]. split; [intros rest; now apply audio_loop_next|].
  unfold audio_event, notes_log, results_buffer. rewrite Hrun, Hmic, Hrec.
  subst s'. destruct (self s); simpl. repeat split; reflexivity.
Qed.

Lemma service_error_is_shown_witness :
  exists s',
    audio_iteration (attempt_answered (Raise quota_exceeded)) english_session
    = (Return tt, s') /\
    results_buffer s' = Some (lit "Audio Error: " ++ exn_str quota_exceeded).
Proof.
  destruct (service_error_is_shown (attempt_answered (Raise quota_exceeded))
                                   english_session quota_exceeded [])
    as (s' & Hrun & _ & _ & _ & _ & Hbuf & _).
  - repeat split; reflexivity.
  - reflexivity.
  - reflexivity.
  - exists s'. split; [exact Hrun | exact Hbuf].
Defined.

(* ================================================================== *)
(** ** Startup *)
(* ================================================================== *)

(** [build] returns whenever the configured camera opens. *)
Lemma build_returns (vc : val -> outcome bool) (s : State) (index : val) :
  camera_index (self s) = Some index ->
  vc index = Return true ->
  exists s', build vc s = (Return tt, s').
Proof.
  intros Hidx Hopen. unfold build, start_camera, start_audio_thread, add_widget.
  destruct s as [a fs lg]; destruct a; simpl in *. subst.
  run. rewrite Hopen. simpl. eauto.
Qed.

(** What [build] leaves behind when it returns. *)
Lemma build_result (vc : val -> outcome bool) (s s' : State) :
  build vc s = (Return tt, s') ->
  running (self s') = true /\
  audio_thread (self s') = true /\
  scheduled (self s') = true /\
  result_label (self s') = Some [] /\
  audio_btn (self s') = Some (lit "Start Audio") /\
  camera_image (self s') = Some None.
Proof.
  unfold build, start_camera, start_audio_thread, add_widget. run.
  destruct s as [a fs lg]; destruct a; simpl.
  destruct camera_index0 as [index|]; simpl;
    [destruct (vc index) as [[|]|e]; simpl|];
    try (destruct result_label0; simpl);
    intros [= <-]; simpl; repeat split; reflexivity.
Qed.

(** Without a result widget, a camera that does not open makes
    [start_camera] raise from its own handler. *)
Lemma start_camera_raises (vc : val -> outcome bool) (s : State) :
  result_label (self s) = None ->
  (forall index, camera_index (self s) = Some index -> vc index <> Return true) ->
  fst (start_camera vc s) = Raise (no_attribute "result_label").
Proof.
  intros Hlabel Hclosed. unfold start_camera. run.
  destruct s as [a fs lg]; destruct a; simpl in *. subst.
  destruct camera_index0 as [index|]; simpl; [|reflexivity].
  specialize (Hclosed index eq_refl).
  destruct (vc index) as [[|]|e]; simpl; congruence.
Qed.

Lemma build_raises (vc : val -> outcome bool) (s : State) :
  result_label (self s) = None ->
  (forall index, camera_index (self s) = Some index -> vc index <> Return true) ->
  fst (build vc s) = Raise (no_attribute "result_label").
Proof.
  intros Hlabel Hclosed. unfold build. run.
  match goal with |- context [start_camera vc ?st] =>
    pose proof (start_camera_raises vc st) as H end.
  simpl in H. destruct s as [a fs lg]; destruct a; simpl in *.
  specialize (H Hlabel Hclosed).
  destruct (start_camera vc _) as [[u|e] s1]; simpl in *; congruence.
Qed.

Lemma initial_label_is_not_compared_label :
  str_eqb (lit "Start Audio") (lit " Start Audio") = false.
Proof. vm_compute. reflexivity. Qed.

(** C10. Once [build] has returned, the running flag is true although the
    audio button reads ["Start Audio"], so an iteration of the speech loop
    listens at once; that label differs from [" Start Audio"], the text the
    handler compares with, and the first press therefore takes the [else]
    branch: the flag becomes false and the label [" Start Audio"]. *)
Theorem first_toggle_stops_audio (vc : val -> outcome bool) (s s' : State) :
  build vc s = (Return tt, s') ->
  running (self s') = true /\
  audio_btn (self s') = Some (lit "Start Audio") /\
  audio_thread (self s') = true /\
  (forall env, audio_iteration env s' = listen_and_recognize env s') /\
  str_eqb (lit "Start Audio") (lit " Start Audio") = false /\
  exists s'',
    toggle_audio s' = (Return tt, s'') /\
    running (self s'') = false /\
    audio_btn (self s'') = Some (lit " Start Audio").
Proof.
  intros Hbuild.
  destruct (build_result vc s s' Hbuild) as (Hrun & Hth & _ & _ & Hbtn & _).
  split; [exact Hrun|]. split; [exact Hbtn|]. split; [exact Hth|].
  split; [intros env; now apply audio_iteration_running|].
  split; [exact initial_label_is_not_compared_label|].
  unfold toggle_audio, mbind, M_bind, bind, attr. rewrite Hbtn.
  rewrite initial_label_is_not_compared_label. unfold assign.
  eexists. split; [reflexivity|].
  destruct (self s'); split; reflexivity.
Qed.

Lemma first_toggle_stops_audio_witness :
  running (self english_session) = true /\
  running (self (snd (toggle_audio english_session))) = false.
Proof.
  destruct (first_toggle_stops_audio camera_opens
              (snd ((init reads_english ;;
                     load_config (boot_config reads_english))
                      (start english_disk)))
              english_session)
    as (Hrun & _ & _ & _ & _ & s'' & Htoggle & Hoff & _).
  - vm_compute. reflexivity.
  - rewrite Htoggle. split; [exact Hrun | exact Hoff].
Defined.

(* ================================================================== *)
(** ** The output sink *)
(* ================================================================== *)

Lemma camera_event_inv (env : tick_env) (s : State) (ev : RecognitionEvent) :
  camera_event env s = Some ev ->
  exists frame raw,
    ocr_capture env s frame raw /\ nonempty (strip raw) = true /\
    ev = mkEvent Camera (strip raw) (now (tick_note env)).
Proof.
  unfold camera_event, ocr_capture.
  destruct (running (self s)); [|discriminate].
  destruct (camera (self s)) as [[|]|]; try discriminate.
  destruct (read env) as [[frame|]|]; try discriminate.
  destruct (image_to_string env frame _) as [raw|] eqn:Hocr; [|discriminate].
  destruct (nonempty (strip raw)) eqn:Hne; [|discriminate].
  intros [= <-]. exists frame, raw. repeat split; auto.
Qed.

Lemma audio_event_inv (env : audio_env) (s : State) (ev : RecognitionEvent) :
  audio_event env s = Some ev ->
  exists text,
    running (self s) = true /\ listen_error env = None /\
    recognize_google env (language (self s)) = Return text /\
    nonempty text = true /\
    ev = mkEvent Audio text (now (audio_note env)).
Proof.
  unfold audio_event.
  destruct (running (self s)); [|discriminate].
  destruct (listen_error env); [discriminate|].
  destruct (recognize_google env _) as [text|]; [|discriminate].
  destruct (nonempty text) eqn:Hne; [|discriminate].
  intros [= <-]. exists text. repeat split; auto.
Qed.

Lemma event_line_note_line (ev : RecognitionEvent) :
  note_line (ev_time ev) (source_name (ev_source ev)) (ev_text ev)
  = event_line ev ++ nl.
Proof. unfold note_line, event_line. now rewrite <- !app_assoc. Qed.





(** A synthesis that spares a file leaves it as it was. *)
Lemma after_tts_spares (env : audio_env) (s : State) (text path : str)
      (fs : gmap str str) :
  spares env s path ->
  fst (after_tts env s text fs) !! path = fs !! path.
Proof.
  unfold spares, after_tts, tts_outcome, audio_file. intros Hspare.
  destruct (truthy (tts_enabled (self s))); [|reflexivity].
  destruct Hspare as [Hoff|Hne]; [discriminate|].
  destruct (gtts_error _ _ _); [reflexivity|].
  destruct (tts_save _ _ _) as [audio|e [partial|]]; cbn [fst];
    try reflexivity; [|now apply lookup_insert_ne].
  destruct (playback_error _); [now apply lookup_insert_ne|].
  destruct (remove_error _); cbn [fst];
    [now apply lookup_insert_ne | now apply lookup_delete_ne].
Qed.

(** What a tick that produces an event leaves in the files and the buffer. *)
Lemma camera_event_effect (env : tick_env) (s : State) (ev : RecognitionEvent)
      (p old : str) (img : option Texture) :
  notes_file (self s) = VStr p ->
  results_buffer s = Some old ->
  displayed s = Some img ->
  camera_event env s = Some ev ->
  let s' := snd (update_camera env s) in
  ev_source ev = Camera /\
  notes_file (self s') = VStr p /\
  files s' = match append_error (tick_note env) with
             | None => <[p := default [] (files s !! p) ++ event_line ev ++ nl]>
                         (files s)
             | Some _ => files s
             end /\
  results_buffer s' =
    Some (result_block (lit "Camera Text:") (ev_text ev)
                       (trailing_context (append_error (tick_note env)) old)).
Proof.
  intros Hp Hold Himg Hev.
  destruct (camera_event_inv env s ev Hev) as (frame & raw & Hcap & Hne & ->).
  unfold results_buffer, displayed in *. cbn [ev_source ev_text ev_time].
  destruct (append_error (tick_note env)) as [e|] eqn:Herr.
  - rewrite (update_camera_note_error env s frame raw p old img e) by assumption.
    cbn [snd self files]. destruct (self s); simpl in *. subst. auto.
  - rewrite (update_camera_records env s frame raw p old img) by assumption.
    cbn [snd self files].
    rewrite <- (event_line_note_line
                  (mkEvent Camera (strip raw) (now (tick_note env)))).
    destruct (self s); simpl in *. subst. auto.
Qed.

Lemma result_label_set (v : option str) (a : App) :
  result_label (set_result_label v a) = v.
Proof. now destruct a. Qed.

Lemma audio_event_effect (env : audio_env) (s : State) (ev : RecognitionEvent)
      (p old : str) :
  notes_file (self s) = VStr p ->
  results_buffer s = Some old ->
  audio_event env s = Some ev ->
  let s' := snd (audio_iteration env s) in
  ev_source ev = Audio /\
  notes_file (self s') = VStr p /\
  files s' =
    fst (after_tts env s (ev_text ev)
           match append_error (audio_note env) with
           | None => <[p := default [] (files s !! p) ++ event_line ev ++ nl]>
                       (files s)
           | Some _ => files s
           end) /\
  results_buffer s' =
    Some (result_block (lit "Audio Text:") (ev_text ev)
                       (trailing_context (append_error (audio_note env)) old)).
Proof.
  intros Hp Hold Hev.
  destruct (audio_event_inv env s ev Hev)
    as (text & Hrun & Hmic & Hrec & Hne & ->).
  unfold results_buffer in *. cbn [ev_source ev_text ev_time].
  destruct (append_error (audio_note env)) as [e|] eqn:Herr.
  - destruct (listen_note_error env s text p old e) as [lg ->]; try assumption.
    cbn [snd self files trailing_context].
    rewrite set_result_label_notes_file, result_label_set. auto.
  - rewrite (listen_records env s text p old) by assumption.
    cbn [snd self files trailing_context].
    rewrite <- (event_line_note_line
                  (mkEvent Audio text (now (audio_note env)))).
    rewrite set_result_label_notes_file, result_label_set. auto.
Qed.




(** C6 (amended). On a built application whose notes file is named by a
    [str], an event of either pipeline sets the buffer to the labelled
    block, a blank line, and the first 200 characters (all of them when
    there are fewer) of the trailing context: the previously displayed
    content when the note was saved, the ["Note Save Error: ..."] report
    when the append raised. With language [en-US], an empty buffer and OCR
    text [HELLO] the buffer becomes ["Camera Text:"], a newline, [HELLO]
    and a blank line. *)
Theorem buffer_is_block_then_context (s : State) (p old : str) :
  notes_file (self s) = VStr p ->
  results_buffer s = Some old ->
  (forall env ev img,
      displayed s = Some img ->
      camera_event env s = Some ev ->
      results_buffer (snd (update_camera env s)) =
        Some (lit "Camera Text:" ++ nl ++ ev_text ev ++ nl ++ nl
              ++ take 200 (trailing_context (append_error (tick_note env)) old)) /\
      (append_error (tick_note env) = None ->
       keeps_previous_context ev s (snd (update_camera env s)))) /\
  (forall env ev,
      audio_event env s = Some ev ->
      results_buffer (snd (audio_iteration env s)) =
        Some (lit "Audio Text:" ++ nl ++ ev_text ev ++ nl ++ nl
              ++ take 200 (trailing_context (append_error (audio_note env)) old)) /\
      (append_error (audio_note env) = None ->
       keeps_previous_context ev s (snd (audio_iteration env s)))) /\
  (length (take 200 old) <= 200 /\
   (length old <= 200 -> take 200 old = old) /\
   exists rest, old = take 200 old ++ rest) /\
  (language (self english_session) = VStr (lit "en-US") /\
   results_buffer
     (snd (update_camera (tick_reading (lit " HELLO" ++ nl) None) english_session))
   = Some (lit "Camera Text:" ++ nl ++ lit "HELLO" ++ nl ++ nl)).
Proof.
  intros Hp Hold. split; [|split; [|split]].
  - intros env ev img Himg Hev.
    destruct (camera_event_effect env s ev p old img Hp Hold Himg Hev)
      as (Hsrc & _ & _ & Hbuf).
    split; [exact Hbuf|]. intros Hok.
    exists old. split; [exact Hold|]. rewrite Hbuf, Hok, Hsrc. reflexivity.
  - intros env ev Hev.
    destruct (audio_event_effect env s ev p old Hp Hold Hev)
      as (Hsrc & _ & _ & Hbuf).
    split; [exact Hbuf|]. intros Hok.
    exists old. split; [exact Hold|]. rewrite Hbuf, Hok, Hsrc. reflexivity.
  - split; [rewrite length_take; lia|].
    split; [intros Hshort; now apply take_ge|].
    exists (drop 200 old). now rewrite take_drop.
  - split; vm_compute; reflexivity.
Qed.

Lemma buffer_is_block_then_context_witness :
  keeps_previous_context hello_event english_session
    (snd (update_camera (tick_reading (lit " HELLO" ++ nl) None) english_session)).
Proof.
  destruct (buffer_is_block_then_context english_session (lit "notes.txt") [])
    as [Hcamera _].
  - vm_compute. reflexivity.
  - vm_compute. reflexivity.
  - apply (Hcamera (tick_reading (lit " HELLO" ++ nl) None) hello_event None).
    + vm_compute. reflexivity.
    + vm_compute. reflexivity.
    + vm_compute. reflexivity.
Defined.

(** C6 as stated fails when the append is refused: what follows the block is
    the error report, and the previously displayed content is gone. *)
Lemma refused_append_replaces_context :
  camera_event (tick_reading (lit "HELLO") (Some permission_denied))
               english_session = Some hello_event /\
  ~ keeps_previous_context hello_event english_session
      (snd (update_camera (tick_reading (lit "HELLO") (Some permission_denied))
                          english_session)).
Proof.
  split; [vm_compute; reflexivity|].
  intros (old & Hold & Hnew). vm_compute in Hold. injection Hold as <-.
  vm_compute in Hnew. discriminate Hnew.
Qed.

(* ================================================================== *)
(** ** The running flag *)
(* ================================================================== *)

(** A tick that captures a frame displays it, whatever Tesseract reads and
    whatever happens to the note. *)
Lemma update_camera_renders (env : tick_env) (s : State) (frame : Frame)
      (raw old : str) (img : option Texture) :
  ocr_capture env s frame raw ->
  results_buffer s = Some old ->
  displayed s = Some img ->
  fst (update_camera env s) = Return tt /\
  displayed (snd (update_camera env s)) = Some (Some (render frame)).
Proof.
  intros (Hrun & Hcam & Hread & Hocr) Hold Himg.
  unfold results_buffer, displayed in *.
  unfold update_camera, camera_read, save_note, append_text. run.
  rewrite Hrun, Hcam. simpl. rewrite Hread. simpl. rewrite Hocr. simpl.
  destruct s as [a fs lg]; destruct a; simpl in *. subst.
  destruct (nonempty (strip raw)); simpl; [|split; reflexivity].
  destruct notes_file0; simpl;
    try (destruct (append_error (tick_note env)); simpl);
    split; reflexivity.
Qed.

Lemma build_sets_running (vc : val -> outcome bool) (s : State) :
  running (self (snd (build vc s))) = true.
Proof.
  unfold build.
  match goal with
  | |- context [assign (set_running true) ≫= ?k] =>
      assert (Hrest : stable (fun a => running a = true) (k tt))
        by invariant;
      unfold mbind at 1, M_bind, bind; cbn [assign];
      apply Hrest
  end.
  now destruct (self s).
Qed.

Lemma init_clears_running (env : boot_env) (s : State) :
  running (self (snd (init env s))) = false.
Proof.
  assert (Hrest : stable (fun a => running a = false)
                         (load_config (boot_config env) ;;
                          check_dependencies (import_error env)))
    by invariant.
  unfold init, mbind, M_bind, bind, assign. cbn beta iota.
  apply Hrest. now destruct (self s).
Qed.

Lemma toggle_audio_writes_flag (s : State) (label : str) :
  audio_btn (self s) = Some label ->
  running (self (snd (toggle_audio s))) = str_eqb label (lit " Start Audio").
Proof.
  intros Hbtn. unfold toggle_audio, mbind, M_bind, bind, attr. rewrite Hbtn.
  destruct (str_eqb label (lit " Start Audio")); unfold assign;
    now destruct (self s).
Qed.

Lemma stop_app_clears_running (s : State) :
  running (self (snd (stop_app s))) = false.
Proof.
  unfold stop_app, stop_running_app. run.
  destruct s as [a fs lg]; destruct a; simpl.
  now destruct camera0, running_app0.
Qed.

(** C5 (amended). The running flag is written by [__init__] (false),
    [build] (true), the toggle (true exactly when the label was
    [" Start Audio"]) and the exit control (false); neither pipeline writes
    it and both read it: while it is false a tick of the OCR pipeline and an
    iteration of the speech loop return at once and change nothing, so no
    frame is captured or displayed; while it is true, on a built
    application, a tick on which an opened camera delivers a frame and
    Tesseract returns a text puts that frame on display, as an [rgb] texture
    of the frame's width and height whose buffer is the frame's pixels in
    row-major order, each BGR triple turned into RGB; a tick on which
    Tesseract raises leaves the display as it was. *)
Theorem running_flag_gates_both_pipelines :
  (forall tick attempt s,
      running (self s) = false ->
      update_camera tick s = (Return tt, s) /\
      audio_iteration attempt s = (Return tt, s)) /\
  (forall env s frame raw old img,
      ocr_capture env s frame raw ->
      results_buffer s = Some old ->
      displayed s = Some img ->
      fst (update_camera env s) = Return tt /\
      displayed (snd (update_camera env s)) =
        Some (Some (mkTexture
                      (width frame, height frame) "rgb"
                      (flat_map
                         (fun px => match px with (b, g, r) => [r; g; b] end)
                         (pixels frame))))) /\
  (forall env s frame e old,
      running (self s) = true ->
      camera (self s) = Some true ->
      read env = Return (Some frame) ->
      results_buffer s = Some old ->
      image_to_string env frame (lang_code (language (self s))) = Raise e ->
      fst (update_camera env s) = Return tt /\
      displayed (snd (update_camera env s)) = displayed s) /\
  (forall env s, running (self (snd (init env s))) = false) /\
  (forall vc s, running (self (snd (build vc s))) = true) /\
  (forall s label,
      audio_btn (self s) = Some label ->
      running (self (snd (toggle_audio s)))
      = str_eqb label (lit " Start Audio")) /\
  (forall s, running (self (snd (stop_app s))) = false) /\
  (forall env s,
      running (self (snd (update_camera env s))) = running (self s)) /\
  (forall env s,
      running (self (snd (audio_iteration env s))) = running (self s)).
Proof.
  split; [|split; [|split; [|split; [|split; [|split; [|split; [|split]]]]]]].
  - intros tick attempt s Hoff. split.
    + now apply update_camera_paused.
    + now apply audio_iteration_paused.
  - intros env s frame raw old img Hcap Hold Himg.
    rewrite <- render_is_rgb_texture. now apply (update_camera_renders _ _ _ raw old img).
  - exact update_camera_ocr_raises_keeps_display.
  - exact init_clears_running.
  - exact build_sets_running.
  - exact toggle_audio_writes_flag.
  - exact stop_app_clears_running.
  - intros env s. now apply (update_camera_keeps_running env (running (self s)) s).
  - intros env s.
    now apply (audio_iteration_keeps_running env (running (self s)) s).
Qed.

Lemma running_flag_gates_both_pipelines_witness :
  update_camera (tick_reading (lit "HELLO") None)
                (with_running false english_session)
  = (Return tt, with_running false english_session) /\
  displayed (snd (update_camera (tick_reading (lit "HELLO") None) english_session))
  = Some (Some (mkTexture (2, 1) "rgb" [3; 2; 1; 6; 5; 4]%N)).
Proof.
  destruct running_flag_gates_both_pipelines as (Hoff & Hon & _).
  split.
  - apply (Hoff (tick_reading (lit "HELLO") None)
                (attempt_answered (Raise not_understood))).
    vm_compute. reflexivity.
  - apply (Hon (tick_reading (lit "HELLO") None) english_session frame_1x2
               (lit "HELLO") [] None).
    + repeat split; vm_compute; reflexivity.
    + vm_compute. reflexivity.
    + vm_compute. reflexivity.
Defined.

(** C5 as stated fails: with the flag off, a tick on which the camera would
    deliver a frame leaves the display as it was. *)
Lemma paused_tick_displays_nothing :
  ocr_capture (tick_reading (lit "HELLO") None) english_session frame_1x2
              (lit "HELLO") /\
  ~ renders_whatever_the_flag (tick_reading (lit "HELLO") None) english_session
                              frame_1x2.
Proof.
  split; [repeat split; vm_compute; reflexivity|].
  intros H. specialize (H false). vm_compute in H. discriminate H.
Qed.

(* ================================================================== *)
(** ** Failures at startup *)
(* ================================================================== *)

(** [__init__] creates no result widget. *)
Lemma init_leaves_no_result_label (env : boot_env) (fs : gmap str str) :
  result_label (self (snd (init env (start fs)))) = None.
Proof. now apply (init_creates_no_result_label env (start fs)). Qed.

(** When the configuration file is missing, [load_config] assigns no
    [camera_index]. *)
Lemma load_config_without_file (env : config_env) (s : State) :
  files s !! CONFIG_FILE = None ->
  camera_index (self (snd (load_config env s))) = camera_index (self s).
Proof.
  intros Hnone. unfold load_config, write_json. run. rewrite Hnone.
  destruct (json_dump_error env); simpl; [|reflexivity].
  destruct (result_label (self s)); simpl; [|reflexivity].
  now destruct (self s).
Qed.

Lemma init_without_file_sets_no_camera_index (env : boot_env)
      (fs : gmap str str) :
  fs !! CONFIG_FILE = None ->
  camera_index (self (snd (init env (start fs)))) = None.
Proof.
  intros Hnone. unfold init.
  repeat (unfold mbind at 1, M_bind, bind at 1; cbn [assign]).
  apply (holds_after_bind (fun a => camera_index a = None)).
  - now rewrite load_config_without_file.
  - intros _. invariant.
Qed.

(** A configuration file that cannot be read or parsed makes [__init__]
    raise from the handler of [load_config]. *)
Lemma init_raises_on_unreadable_config (env : boot_env) (fs : gmap str str)
      (content : str) (e : exn) :
  fs !! CONFIG_FILE = Some content ->
  json_load (boot_config env) content = Raise e ->
  fst (init env (start fs)) = Raise (no_attribute "result_label").
Proof.
  intros Hfile Hload. unfold init, load_config. run.
  rewrite Hfile. simpl. rewrite Hload. reflexivity.
Qed.

Lemma load_config_creates_no_result_label (env : config_env) :
  stable no_result_label (load_config env).
Proof. unfold load_config. invariant. Qed.

Lemma main_after_prepare (env : boot_env) (vc : val -> outcome bool)
      (s : State) :
  main env vc s
  = match prepare env s with
    | (Return _, s1) => build vc s1
    | (Raise e, s1) => (Raise e, s1)
    end.
Proof.
  unfold main, prepare, mbind, M_bind, bind.
  destruct (init env s) as [[u|e] s1]; [|reflexivity].
  now destruct (load_config (boot_config env) s1) as [[u'|e] s2].
Qed.

Lemma prepare_leaves_no_result_label (env : boot_env) (fs : gmap str str) :
  result_label (self (snd (prepare env (start fs)))) = None.
Proof.
  unfold prepare.
  apply (holds_after_bind no_result_label).
  - apply init_leaves_no_result_label.
  - intros _. apply load_config_creates_no_result_label.
Qed.

(** A camera that does not open ends [main] with an exception, whatever
    the configuration. *)
Lemma main_raises_without_camera (env : boot_env) (vc : val -> outcome bool)
      (fs : gmap str str) :
  (forall index, vc index <> Return true) ->
  exists e, fst (main env vc (start fs)) = Raise e.
Proof.
  intros Hclosed. rewrite main_after_prepare.
  pose proof (prepare_leaves_no_result_label env fs) as Hlabel.
  destruct (prepare env (start fs)) as [[u|e] s1]; simpl in *; [|eauto].
  exists (no_attribute "result_label").
  apply build_raises; [exact Hlabel | intros index _; apply Hclosed].
Qed.

Lemma init_from_initialised (env : boot_env) (fs : gmap str str) :
  init env (start fs)
  = (load_config (boot_config env) ;; check_dependencies (import_error env))
      (mkState initialised fs []).
Proof. reflexivity. Qed.

Lemma load_config_document (env : config_env) (s : State) (content : str)
      (d : list (str * val)) :
  files s !! CONFIG_FILE = Some content ->
  json_load env content = Return (VDict d) ->
  load_config env s =
    (Return tt,
     mkState (configured d (self s)) (files s)
             (log s ++ [LogRecord INFO "Configuration loaded: %s" [VDict d]])).
Proof.
  intros Hfile Hload. unfold load_config, config_get. run.
  rewrite Hfile. simpl. rewrite Hload. simpl.
  destruct s as [a fs lg]; destruct a; reflexivity.
Qed.

Lemma check_dependencies_loop (import_error : string -> option exn) :
  check_dependencies import_error
  = for_each required_modules (check_module import_error).
Proof. reflexivity. Qed.

(** One module of [check_dependencies], before any result widget exists:
    it returns and changes nothing when the import works, and raises
    otherwise. *)
Lemma check_module_works (import_error : string -> option exn)
      (module : string) (s : State) :
  import_error module = None ->
  check_module import_error module s = (Return tt, s).
Proof. intros H. unfold check_module, try_except. now rewrite H. Qed.

Lemma check_module_raises (import_error : string -> option exn)
      (module : string) (s : State) (e : exn) :
  result_label (self s) = None ->
  import_error module = Some e ->
  exists e' s', check_module import_error module s = (Raise e', s').
Proof.
  intros Hlabel H. unfold check_module, try_except, select. rewrite H.
  unfold may_raise, raise.
  destruct (catches ExceptImportError e); [|eauto].
  run. rewrite Hlabel. eauto.
Qed.

Lemma for_each_module (import_error : string -> option exn) (l : list string)
      (s : State) :
  result_label (self s) = None ->
  (Forall (fun m => import_error m = None) l ->
   for_each l (check_module import_error) s = (Return tt, s)) /\
  (Exists (fun m => import_error m <> None) l ->
   exists e, fst (for_each l (check_module import_error) s) = Raise e).
Proof.
  intros Hlabel. induction l as [|m l [IHok IHbad]].
  - split; [reflexivity|]. intros H. inversion H.
  - cbn [for_each]. unfold mbind, M_bind, bind. split.
    + intros Hall. inversion Hall as [|? ? Hhead Htail]; subst.
      rewrite (check_module_works _ _ _ Hhead). now apply IHok.
    + intros Hex. destruct (import_error m) as [e|] eqn:Hhead.
      * destruct (check_module_raises _ _ _ e Hlabel Hhead) as (e' & s' & ->).
        eauto.
      * rewrite (check_module_works _ _ _ Hhead). apply IHbad.
        inversion Hex as [? ? Hbad|]; [congruence|assumption].
Qed.

(** [load_config] without a configuration file writes the default document
    and assigns nothing. *)
Lemma load_config_creates_default (env : config_env) (s : State) :
  files s !! CONFIG_FILE = None ->
  json_dump_error env = None ->
  load_config env s =
    (Return tt,
     mkState (self s)
             (<[CONFIG_FILE := json_dumps 0 (VDict DEFAULT_CONFIG)]> (files s))
             (log s ++ [LogRecord INFO "Default configuration created" []])).
Proof.
  intros Hnone Hdump. unfold load_config, write_json. run.
  rewrite Hnone, Hdump. reflexivity.
Qed.


Lemma imports_work_each (import_error : string -> option exn) :
  imports_work import_error ->
  Forall (fun m => import_error m = None) required_modules.
Proof. intros H. apply List.Forall_forall. exact H. Qed.





(** C3. With a configuration file that does not parse, the handler of
    [load_config] raises [AttributeError] on the result widget that does not
    exist yet: [__init__] does not return, no message is shown and [main]
    ends with that exception. *)
Theorem unparsable_config_ends_process :
  fst (init parse_fails (start truncated_disk))
  = Raise (no_attribute "result_label") /\
  results_buffer (snd (init parse_fails (start truncated_disk))) = None /\
  fst (main parse_fails camera_opens (start truncated_disk))
  = Raise (no_attribute "result_label").
Proof. repeat split; vm_compute; reflexivity. Qed.

(** C4. With a valid configuration and a camera that does not open, the
    handler of [start_camera] raises [AttributeError] on the result widget
    that [build] has not created yet: [main] ends with that exception, no
    message is shown, the timer is not scheduled and the speech thread is
    not started. *)
Theorem closed_camera_ends_process :
  fst (init reads_english (start english_disk)) = Return tt /\
  fst (main reads_english camera_stays_closed (start english_disk))
  = Raise (no_attribute "result_label") /\
  results_buffer (snd (main reads_english camera_stays_closed
                            (start english_disk))) = None /\
  scheduled (self (snd (main reads_english camera_stays_closed
                             (start english_disk)))) = false /\
  audio_thread (self (snd (main reads_english camera_stays_closed
                                (start english_disk)))) = false.
Proof. repeat split; vm_compute; reflexivity. Qed.

(* ================================================================== *)
(** * Further properties of the program *)
(* ================================================================== *)

(** ** Configuration and startup *)

Lemma dict_get_missing (d : list (str * val)) (key : str) (default : val) :
  key ∉ map fst d -> dict_get d key default = default.
Proof.
  induction d as [|[k v] d IH]; simpl; intros Hnot; [reflexivity|].
  unfold str_eqb. destruct (bool_decide_reflect (k = key)) as [->|_].
  - exfalso. apply Hnot. left.
  - apply IH. intros Hin. apply Hnot. now right.
Qed.

Lemma dict_get_other_key (d : list (str * val)) (k key : str) (v default : val) :
  k <> key -> dict_get ((k, v) :: d) key default = dict_get d key default.
Proof.
  intros Hne. simpl. unfold str_eqb.
  now destruct (bool_decide_reflect (k = key)).
Qed.

(** X1. [load_config] on a document that is a JSON object returns, leaves
    the files, the widgets and the running flag alone and takes each of the
    four settings from the document: a key that is missing gives the
    default, and a key the program does not know changes nothing. *)
Theorem load_config_merges_document
        (env : config_env) (s : State) (content : str) (d : list (str * val)) :
  files s !! CONFIG_FILE = Some content ->
  json_load env content = Return (VDict d) ->
  load_config env s =
    (Return tt,
     mkState (configured d (self s)) (files s)
             (log s ++ [LogRecord INFO "Configuration loaded: %s" [VDict d]])) /\
  language (configured d (self s))
  = dict_get d (lit "language") (VStr (lit "am-ET")) /\
  notes_file (configured d (self s))
  = dict_get d (lit "notes_file") (VStr (lit "notes.txt")) /\
  tts_enabled (configured d (self s))
  = dict_get d (lit "tts_enabled") (VBool false) /\
  camera_index (configured d (self s))
  = Some (dict_get d (lit "camera_index") (VInt 0)) /\
  (forall key default, key ∉ map fst d -> dict_get d key default = default) /\
  (forall k v a, k ∉ config_keys -> configured ((k, v) :: d) a = configured d a).
Proof.
  intros Hfile Hload.
  split; [now apply (load_config_document env s content d)|].
  destruct (self s); simpl.
  repeat split.
  - apply dict_get_missing.
  - intros k v a Hk. unfold configured.
    rewrite !dict_get_other_key; [reflexivity| | | |];
      intros ->; apply Hk; unfold config_keys; set_solver.
Qed.

Lemma load_config_merges_document_witness :
  language (self (snd (load_config (boot_config reads_english)
                                   (mkState initialised english_disk []))))
  = VStr (lit "en-US") /\
  notes_file (self (snd (load_config (boot_config reads_english)
                                     (mkState initialised english_disk []))))
  = VStr (lit "notes.txt").
Proof.
  destruct (load_config_merges_document
              (boot_config reads_english) (mkState initialised english_disk [])
              (json_dumps 4 english_config)
              [ (lit "camera_index", VInt 0); (lit "language", VStr (lit "en-US")) ])
    as (Hrun & _).
  - vm_compute. reflexivity.
  - reflexivity.
  - rewrite Hrun. split; vm_compute; reflexivity.
Defined.

(** X2. Before the result widget exists (as in [__init__]),
    [check_dependencies] returns exactly when every required module
    imports, and then it changes nothing; one failing import makes it
    raise. *)
Theorem check_dependencies_returns_iff
        (import_error : string -> option exn) (s : State) :
  result_label (self s) = None ->
  (fst (check_dependencies import_error s) = Return tt
   <-> imports_work import_error) /\
  (imports_work import_error ->
   check_dependencies import_error s = (Return tt, s)).
Proof.
  intros Hlabel.
  destruct (for_each_module import_error required_modules s Hlabel)
    as [Hok Hbad].
  assert (Hall : imports_work import_error ->
                 Forall (fun m => import_error m = None) required_modules).
  { intros H. apply List.Forall_forall. exact H. }
  split; [split|].
  - intros Hret. unfold imports_work. apply List.Forall_forall.
    assert (Hdec : forall m, {import_error m = None} + {import_error m <> None}).
    { intros m. destruct (import_error m); [right; discriminate | now left]. }
    destruct (@List.Forall_Exists_dec _ (fun m => import_error m = None) Hdec
                                      required_modules) as [H|H]; [exact H|].
    destruct (Hbad H) as [e He]. rewrite check_dependencies_loop in Hret.
    congruence.
  - intros H. rewrite check_dependencies_loop. now rewrite (Hok (Hall H)).
  - intros H. rewrite check_dependencies_loop. exact (Hok (Hall H)).
Qed.

Lemma check_dependencies_returns_iff_witness :
  check_dependencies every_import_works (mkState initialised english_disk [])
  = (Return tt, mkState initialised english_disk []).
Proof.
  destruct (check_dependencies_returns_iff
              every_import_works (mkState initialised english_disk []))
    as [_ Hsame].
  - reflexivity.
  - apply Hsame. intros module _. reflexivity.
Defined.

(** What one [load_config] does before the result widget exists. *)
Lemma load_config_outcome (env : config_env) (s : State) :
  result_label (self s) = None ->
  match files s !! CONFIG_FILE with
  | Some content =>
      match json_load env content with
      | Return (VDict d) =>
          load_config env s =
            (Return tt,
             mkState (configured d (self s)) (files s)
                     (log s ++ [LogRecord INFO "Configuration loaded: %s"
                                          [VDict d]]))
      | _ => fst (load_config env s) = Raise (no_attribute "result_label")
      end
  | None =>
      match json_dump_error env with
      | None =>
          load_config env s =
            (Return tt,
             mkState (self s)
                     (<[CONFIG_FILE := json_dumps 0 (VDict DEFAULT_CONFIG)]>
                        (files s))
                     (log s ++ [LogRecord INFO "Default configuration created" []]))
      | Some _ => fst (load_config env s) = Raise (no_attribute "result_label")
      end
  end.
Proof.
  intros Hlabel.
  destruct (files s !! CONFIG_FILE) as [content|] eqn:Hfile.
  - destruct (json_load env content) as [v|e] eqn:Hload.
    + destruct v;
        try (unfold load_config, config_get; run; rewrite Hfile; simpl;
             rewrite Hload; simpl; rewrite Hlabel; reflexivity).
      now apply (load_config_document env s content).
    + unfold load_config. run. rewrite Hfile. simpl. rewrite Hload. simpl.
      rewrite Hlabel. reflexivity.
  - destruct (json_dump_error env) as [e|] eqn:Hdump.
    + unfold load_config, write_json. run. rewrite Hfile, Hdump. simpl.
      rewrite Hlabel. reflexivity.
    + now apply load_config_creates_default.
Qed.

Lemma prepare_after_init (env : boot_env) (s : State) :
  prepare env s
  = match init env s with
    | (Return _, s1) => load_config (boot_config env) s1
    | (Raise e, s1) => (Raise e, s1)
    end.
Proof. reflexivity. Qed.

Lemma init_after_load_config (env : boot_env) (fs : gmap str str) :
  init env (start fs)
  = match load_config (boot_config env) (mkState initialised fs []) with
    | (Return _, s1) => check_dependencies (import_error env) s1
    | (Raise e, s1) => (Raise e, s1)
    end.
Proof. reflexivity. Qed.

(** Before the result widget exists, [check_dependencies] changes nothing
    when every module imports and raises otherwise. *)
Lemma imports_decided (import_error : string -> option exn) (s : State) :
  result_label (self s) = None ->
  (imports_work import_error /\
   check_dependencies import_error s = (Return tt, s)) \/
  (~ imports_work import_error /\
   exists e s', check_dependencies import_error s = (Raise e, s')).
Proof.
  intros Hlabel. rewrite check_dependencies_loop.
  destruct (for_each_module import_error required_modules s Hlabel)
    as [Hok Hbad].
  assert (Hdec : forall m, {import_error m = None} + {import_error m <> None}).
  { intros m. destruct (import_error m); [right; discriminate | now left]. }
  destruct (@List.Forall_Exists_dec _ (fun m => import_error m = None) Hdec
                                    required_modules) as [Hall|Hex].
  - left. split; [|exact (Hok Hall)].
    intros m Hm. revert m Hm. now apply List.Forall_forall.
  - right. split.
    + intros Himp. apply imports_work_each in Himp.
      apply List.Exists_exists in Hex. destruct Hex as (m & Hm & Hbroken).
      apply Hbroken. exact (proj1 (List.Forall_forall _ _) Himp m Hm).
    + destruct (Hbad Hex) as [e He].
      destruct (for_each _ _ _) as [[u|e'] s']; simpl in He;
        [discriminate|eauto].
Qed.

Ltac raises_by H :=
  match type of H with
  | fst ?t = Raise _ =>
      destruct t as [[?|?] ?]; cbn [fst] in H; [discriminate H | eauto]
  end.

(** [__init__] and the [load_config] of [App.run], in every case. *)
Lemma prepare_cases (env : boot_env) (fs : gmap str str) :
  (exists d s1,
      document_at_run (boot_config env) fs d /\
      imports_work (import_error env) /\
      prepare env (start fs) = (Return tt, s1) /\
      result_label (self s1) = None /\
      camera_index (self s1)
      = Some (dict_get d (lit "camera_index") (DEFAULT "camera_index"))) \/
  ((forall d, ~ (document_at_run (boot_config env) fs d /\
                 imports_work (import_error env))) /\
   exists e, fst (prepare env (start fs)) = Raise e).
Proof.
  rewrite prepare_after_init, init_after_load_config.
  pose proof (load_config_outcome (boot_config env) (mkState initialised fs [])
                                  eq_refl) as Hfirst.
  cbn [files self log] in Hfirst. unfold document_at_run.
  destruct (fs !! CONFIG_FILE) as [content|] eqn:Hfile.
  - destruct (json_load (boot_config env) content) as [v|e] eqn:Hload.
    + destruct v as [|b|z|t|l|d];
        try (right; split; [intros d' [[=] _]|];
             raises_by Hfirst).
      rewrite Hfirst.
      destruct (imports_decided (import_error env)
                  (mkState (configured d initialised) fs
                           ([] ++ [LogRecord INFO "Configuration loaded: %s"
                                              [VDict d]]))
                  eq_refl) as [[Himp ->]|[Himp (e & s' & ->)]].
      * left. exists d. eexists.
        split; [reflexivity|]. split; [exact Himp|].
        split; [apply (load_config_document _ _ content d);
                [exact Hfile | exact Hload]|].
        split; reflexivity.
      * right. split; [intros d' [_ H]; now apply Himp | eauto].
    + right. split; [intros d' [[=] _]|].
      raises_by Hfirst.
  - destruct (json_dump_error (boot_config env)) as [e|] eqn:Hdump.
    + right. split; [intros d' [[[=] _] _]|].
      raises_by Hfirst.
    + rewrite Hfirst.
      destruct (imports_decided (import_error env)
                  (mkState initialised
                     (<[CONFIG_FILE := json_dumps 0 (VDict DEFAULT_CONFIG)]> fs)
                     ([] ++ [LogRecord INFO "Default configuration created" []]))
                  eq_refl) as [[Himp ->]|[Himp (e & s' & ->)]].
      * match goal with
        | |- context [load_config ?cfg ?st] =>
            pose proof (load_config_outcome cfg st eq_refl) as Hsecond
        end.
        cbn [files self log] in Hsecond. rewrite lookup_insert_eq in Hsecond.
        destruct (json_load (boot_config env)
                            (json_dumps 0 (VDict DEFAULT_CONFIG)))
          as [v|e] eqn:Hload.
        -- destruct v as [|b|z|t|l|d];
             try (right; split; [intros d' [[_ [=]] _]|];
                  raises_by Hsecond).
           left. exists d. eexists.
           split; [split; reflexivity|]. split; [exact Himp|].
           split; [exact Hsecond|]. split; reflexivity.
        -- right. split; [intros d' [[_ [=]] _]|].
           raises_by Hsecond.
      * right. split; [intros d' [_ H]; now apply Himp | eauto].
Qed.

(** The document [App.run] finds is determined by the files and by what
    [json.load] makes of them. *)
Lemma document_at_run_unique (env : config_env) (fs : gmap str str)
      (d d' : list (str * val)) :
  document_at_run env fs d -> document_at_run env fs d' -> d = d'.
Proof.
  unfold document_at_run. destruct (fs !! CONFIG_FILE).
  - congruence.
  - intros [_ H] [_ H']. congruence.
Qed.

(** X3. [main] reaches the event loop exactly when the configuration loads
    to a JSON object both in [__init__] and in [App.run] (the file that is
    on disk, or at a first start the default document that [__init__] has
    just written and [App.run] reads back), every required module imports
    and the camera of the configured index opens; it then leaves the flag
    on, the speech thread started, the timer scheduled and an empty results
    buffer. In every other case it ends with an exception. A first start
    without configuration file reaches the event loop. *)
Theorem startup_succeeds_iff (env : boot_env) (vc : val -> outcome bool)
        (fs : gmap str str) :
  (fst (main env vc (start fs)) = Return tt <-> can_start env vc fs) /\
  (can_start env vc fs ->
   running (self (snd (main env vc (start fs)))) = true /\
   audio_thread (self (snd (main env vc (start fs)))) = true /\
   scheduled (self (snd (main env vc (start fs)))) = true /\
   results_buffer (snd (main env vc (start fs))) = Some []) /\
  (~ can_start env vc fs -> exists e, fst (main env vc (start fs)) = Raise e) /\
  (can_start first_run camera_opens ∅ /\
   fst (main first_run camera_opens (start ∅)) = Return tt /\
   files (snd (main first_run camera_opens (start ∅))) !! CONFIG_FILE
   = Some (json_dumps 0 (VDict DEFAULT_CONFIG))).
Proof.
  assert (Hcases : (can_start env vc fs /\
                    exists s', main env vc (start fs) = (Return tt, s')) \/
                   (~ can_start env vc fs /\
                    exists e, fst (main env vc (start fs)) = Raise e)).
  { rewrite main_after_prepare.
    destruct (prepare_cases env fs)
      as [(d & s1 & Hdoc & Himp & -> & Hlabel & Hidx)|[Hnone [e He]]].
    - destruct (vc (dict_get d (lit "camera_index") (DEFAULT "camera_index")))
        as [[|]|e] eqn:Hcam.
      + left. split; [exists d; auto|]. now apply (build_returns vc s1 _ Hidx).
      + right. split.
        * intros (d' & Hdoc' & _ & Hopen).
          rewrite (document_at_run_unique _ _ _ _ Hdoc' Hdoc) in Hopen.
          congruence.
        * exists (no_attribute "result_label").
          apply build_raises; [exact Hlabel|].
          intros index Hindex. rewrite Hidx in Hindex.
          injection Hindex as <-. congruence.
      + right. split.
        * intros (d' & Hdoc' & _ & Hopen).
          rewrite (document_at_run_unique _ _ _ _ Hdoc' Hdoc) in Hopen.
          congruence.
        * exists (no_attribute "result_label").
          apply build_raises; [exact Hlabel|].
          intros index Hindex. rewrite Hidx in Hindex.
          injection Hindex as <-. congruence.
    - right. split.
      + intros (d & Hdoc & Himp & _). now apply (Hnone d).
      + exists e. destruct (prepare env (start fs)) as [[u|e'] s1];
          simpl in He; [discriminate|exact He]. }
  split; [split|split; [|split]].
  - intros Hret. destruct Hcases as [[H _]|[_ [e He]]]; [exact H|congruence].
  - intros H. destruct Hcases as [[_ [s' ->]]|[Hnot _]];
      [reflexivity | now destruct Hnot].
  - intros H. destruct Hcases as [[_ [s' Hmain]]|[Hnot _]];
      [|now destruct Hnot].
    pose proof Hmain as Hbuilt. rewrite main_after_prepare in Hbuilt.
    destruct (prepare env (start fs)) as [[u|e] s1]; [|discriminate].
    destruct (build_result vc s1 s' Hbuilt) as (Hrun & Hth & Hsch & Hlab & _).
    rewrite Hmain. auto.
  - intros Hnot. destruct Hcases as [[H _]|[_ H]]; [now destruct Hnot | exact H].
  - split; [|split; vm_compute; reflexivity].
    exists DEFAULT_CONFIG. split; [split; reflexivity|].
    split; [intros module _; reflexivity | reflexivity].
Qed.

Lemma startup_succeeds_iff_witness :
  fst (main reads_english camera_opens (start english_disk)) = Return tt /\
  results_buffer (snd (main reads_english camera_opens (start english_disk)))
  = Some [].
Proof.
  assert (H : can_start reads_english camera_opens english_disk).
  { exists [ (lit "camera_index", VInt 0); (lit "language", VStr (lit "en-US")) ].
    repeat split; reflexivity. }
  destruct (startup_succeeds_iff reads_english camera_opens english_disk)
    as ([_ Hret] & Hstate & _).
  split; [exact (Hret H)|]. now destruct (Hstate H) as (_ & _ & _ & Hbuf).
Defined.

(** ** The pipelines never let an exception escape *)

Lemma bind_get {A B} (f : App -> A) (k : A -> M B) (s : State) :
  (get f ≫= k) s = k (f (self s)) s.
Proof. reflexivity. Qed.

Ltac keeps_label_step :=
  lazymatch goal with
  | |- stable has_result_label (assign _) =>
      apply stable_assign; intros [] ?; first [assumption | discriminate]
  | |- stable has_result_label (set_result_label_text _) =>
      unfold set_result_label_text
  | |- _ => invariant_step
  end.

Ltac keeps_label := repeat keeps_label_step.

(** With the result widget in place, a handler that logs and reports on the
    widget returns. *)
Lemma report_returns (fmt : string) (prefix : str) (e : exn) (s : State) :
  has_result_label (self s) ->
  exists s',
    (logger ERROR fmt [VStr (exn_str e)] ;;
     set_result_label_text (prefix ++ exn_str e)) s = (Return tt, s') /\
    has_result_label (self s').
Proof.
  unfold has_result_label. intros Hlabel. run.
  destruct (result_label (self s)) eqn:Hl; [|congruence].
  eexists. split; [reflexivity|]. simpl. now destruct (self s).
Qed.

(** A [try] whose only clause catches every exception, logs it and
    reports it on the widget returns, if its body never removes the widget. *)
Lemma try_reported_returns (body : M unit) (fmt : string) (prefix : str)
      (s : State) :
  has_result_label (self s) ->
  stable has_result_label body ->
  exists s',
    try_except body
      [ (ExceptException, fun e =>
           logger ERROR fmt [VStr (exn_str e)] ;;
           set_result_label_text (prefix ++ exn_str e)) ] s
    = (Return tt, s') /\
    has_result_label (self s').
Proof.
  intros Hlabel Hbody. specialize (Hbody s Hlabel). unfold try_except.
  destruct (body s) as [[[]|e] s1]; simpl in Hbody.
  - eauto.
  - cbn [select catches]. now apply report_returns.
Qed.

Lemma update_camera_keeps_label (env : tick_env) :
  stable has_result_label (update_camera env).
Proof. unfold update_camera. keeps_label. Qed.

Lemma audio_iteration_keeps_label (env : audio_env) :
  stable has_result_label (audio_iteration env).
Proof. unfold audio_iteration. keeps_label. Qed.

(** X4. Once the result widget exists, a timer tick always returns, whatever
    the camera, Tesseract and the file system do, and the widget is still
    there afterwards: no exception of a tick reaches the timer. *)
Theorem tick_never_raises (env : tick_env) (s : State) :
  has_result_label (self s) ->
  fst (update_camera env s) = Return tt /\
  has_result_label (self (snd (update_camera env s))).
Proof.
  intros Hlabel. split; [|now apply update_camera_keeps_label].
  unfold update_camera. rewrite bind_get. cbv beta. rewrite bind_get. cbv beta.
  destruct (running (self s)); [|reflexivity].
  destruct (camera (self s)) as [handle|]; [|reflexivity].
  match goal with
  | |- context [try_except ?body _ s] =>
      assert (Hbody : stable has_result_label body) by keeps_label;
      destruct (try_reported_returns body "Camera update error: %s"
                  (lit "Camera Error: ") s Hlabel Hbody) as (s' & Hs' & _)
  end.
  now rewrite Hs'.
Qed.

Lemma tick_never_raises_witness :
  fst (update_camera
         (mkTickEnv (Raise permission_denied) (tesseract_reads []) 
                    (mkNoteEnv noon None))
         english_session) = Return tt.
Proof.
  apply tick_never_raises. vm_compute. discriminate.
Defined.

Lemma audio_iteration_returns (env : audio_env) (s : State) :
  has_result_label (self s) ->
  exists s', audio_iteration env s = (Return tt, s') /\
             has_result_label (self s').
Proof.
  intros Hlabel.
  pose proof (audio_iteration_keeps_label env s Hlabel) as Hkeep.
  unfold audio_iteration in *. rewrite bind_get in *. cbv beta in *.
  destruct (negb (running (self s))); [eexists; split; [reflexivity|exact Hlabel]|].
  unfold listen_and_recognize in *. unfold try_except at 1 in Hkeep.
  unfold try_except at 1.
  match goal with
  | |- context [match ?body s with _ => _ end] =>
      assert (Hbody : stable has_result_label body) by keeps_label;
      specialize (Hbody s Hlabel); destruct (body s) as [[u|e] s1]
  end.
  - destruct u. eexists. split; [reflexivity|exact Hkeep].
  - cbn [select] in *. destruct (catches ExceptUnknownValueError e).
    + eexists. split; [reflexivity|exact Hkeep].
    + destruct (catches ExceptRequestError e).
      * destruct (report_returns "Audio API error: %s" (lit "Audio Error: ")
                                 e s1 Hbody) as (s' & Hs' & Hl).
        rewrite Hs' in *. eauto.
      * cbn [catches] in *.
        destruct (report_returns "Audio loop error: %s" (lit "Audio Error: ")
                                 e s1 Hbody) as (s' & Hs' & Hl).
        rewrite Hs' in *. eauto.
Qed.

(** X5. Once the result widget exists, the speech loop gets through any
    number of iterations, whatever the microphone, the speech service, the
    file system and the synthesis do: no iteration raises, so only the end
    of the process ends the loop. *)
Theorem audio_loop_never_ends (envs : list audio_env) (s : State) :
  has_result_label (self s) ->
  fst (audio_loop envs s) = Return tt /\
  has_result_label (self (snd (audio_loop envs s))).
Proof.
  revert s. induction envs as [|env envs IH]; intros s Hlabel.
  - split; [reflexivity|exact Hlabel].
  - destruct (audio_iteration_returns env s Hlabel) as (s' & Hstep & Hlabel').
    rewrite (audio_loop_next env envs s s' Hstep). now apply IH.
Qed.

Lemma audio_loop_never_ends_witness :
  fst (audio_loop [ attempt_answered (Raise quota_exceeded);
                    attempt_answered (Raise not_understood);
                    attempt_answered (Return (lit "good morning")) ]
                  english_session) = Return tt.
Proof.
  apply audio_loop_never_ends. vm_compute. discriminate.
Defined.

(** ** The files on disk *)

Section Appends.

Variable spare : str -> Prop.

Lemma grows_refl (s : State) : grows_apart_from spare s s.
Proof.
  repeat split; auto. intros path old _ H. exists []. now rewrite app_nil_r.
Qed.

Lemma grows_trans (s1 s2 s3 : State) :
  grows_apart_from spare s1 s2 -> grows_apart_from spare s2 s3 ->
  grows_apart_from spare s1 s3.
Proof.
  intros (Hn1 & Hother1 & Hpre1) (Hn2 & Hother2 & Hpre2). repeat split.
  - congruence.
  - intros path Hs Hp. rewrite Hother2, Hother1; congruence.
  - intros path old Hs H. destruct (Hpre1 path old Hs H) as [more1 H1].
    destruct (Hpre2 path _ Hs H1) as [more2 H2]. exists (more1 ++ more2).
    now rewrite app_assoc.
Qed.

(** A step that changes neither the files nor the notes file setting. *)
Lemma grows_same_files (s s' : State) :
  notes_file (self s') = notes_file (self s) -> files s' = files s ->
  grows_apart_from spare s s'.
Proof.
  intros Hn Hf. repeat split; [exact Hn | now rewrite Hf |].
  intros path old _ H. exists []. now rewrite Hf, app_nil_r.
Qed.

Lemma appends_only_ret {A} (a : A) : appends_only spare (ret a).
Proof. intros s. apply grows_refl. Qed.

Lemma appends_only_raise {A} (e : exn) : appends_only spare (@raise A e).
Proof. intros s. apply grows_refl. Qed.

Lemma appends_only_lift {A} (r : outcome A) : appends_only spare (lift r).
Proof. intros s. apply grows_refl. Qed.

Lemma appends_only_may_raise (r : option exn) : appends_only spare (may_raise r).
Proof. intros s. destruct r; apply grows_refl. Qed.

Lemma appends_only_get {B} (g : App -> B) : appends_only spare (get g).
Proof. intros s. apply grows_refl. Qed.

Lemma appends_only_attr {B} (name : string) (g : App -> option B) :
  appends_only spare (attr name g).
Proof. intros s. unfold attr. destruct (g (self s)); apply grows_refl. Qed.

Lemma appends_only_logger l fm a : appends_only spare (logger l fm a).
Proof. intros s. now apply grows_same_files. Qed.

Lemma appends_only_assign (g : App -> App) :
  (forall a, notes_file (g a) = notes_file a) -> appends_only spare (assign g).
Proof. intros Hg s. apply grows_same_files; [apply Hg | reflexivity]. Qed.

Lemma appends_only_bind {A B} (m : M A) (k : A -> M B) :
  appends_only spare m -> (forall a, appends_only spare (k a)) ->
  appends_only spare (m ≫= k).
Proof.
  intros Hm Hk s. unfold mbind, M_bind, bind.
  specialize (Hm s). destruct (m s) as [[a|e] s1]; simpl in *.
  - eapply grows_trans; [exact Hm | apply Hk].
  - exact Hm.
Qed.

Lemma appends_only_try (body : M unit) (hs : list (clause * (exn -> M unit))) :
  appends_only spare body ->
  Forall (fun ch => forall e, appends_only spare (snd ch e)) hs ->
  appends_only spare (try_except body hs).
Proof.
  intros Hb Hh s. unfold try_except.
  specialize (Hb s). destruct (body s) as [[a|e] s1]; simpl in *; [exact Hb|].
  assert (Hsel : forall h, select hs e = Some h -> appends_only spare (h e)).
  { clear -Hh. induction Hh as [|[c h0] hs H _ IH]; simpl; [discriminate|].
    intros h. destruct (catches c e); [|apply IH].
    intros [= <-]. apply H. }
  destruct (select hs e) as [h|] eqn:E; simpl; [|exact Hb].
  eapply grows_trans; [exact Hb | now apply (Hsel h eq_refl)].
Qed.

(** The one place that writes to a file that stays: [save_note] appends to
    the file its own setting names, or writes nothing. *)
Lemma appends_only_write (err : option exn) (data : str) :
  appends_only spare (path ← get notes_file; append_text err path data).
Proof.
  intros s. rewrite bind_get. unfold append_text.
  destruct (notes_file (self s)) as [| | |p| |] eqn:Hp;
    try (destruct err; apply grows_refl); try apply grows_refl.
  run. destruct err as [e|]; simpl; [apply grows_refl|].
  repeat split; simpl.
  - intros path _ Hne. rewrite Hp in Hne.
    apply lookup_insert_ne. congruence.
  - intros path old _ H. destruct (decide (p = path)) as [->|Hne].
    + rewrite lookup_insert_eq, H. simpl. eauto.
    + rewrite lookup_insert_ne by exact Hne. exists []. now rewrite app_nil_r.
Qed.

(** The temporary audio file is written and removed under a spared name. *)
Lemma appends_only_write_file (path data : str) :
  spare path -> appends_only spare (write_file path data).
Proof.
  intros Hspare s. unfold write_file. run. repeat split; simpl.
  - intros p Hp _. apply lookup_insert_ne. now intros ->.
  - intros p old Hp H. rewrite lookup_insert_ne by now intros ->.
    exists []. now rewrite app_nil_r.
Qed.

Lemma appends_only_remove (err : option exn) (path : str) :
  spare path -> appends_only spare (remove_if_exists err path).
Proof.
  intros Hspare s. unfold remove_if_exists. run.
  destruct (files s !! path) eqn:Hfile; [|apply grows_refl].
  destruct err as [e|]; simpl; [apply grows_refl|].
  repeat split; simpl.
  - intros p Hp _. apply lookup_delete_ne. now intros ->.
  - intros p old Hp H. rewrite lookup_delete_ne by now intros ->.
    exists []. now rewrite app_nil_r.
Qed.

End Appends.

Ltac each_handler :=
  first [ apply List.Forall_nil
        | apply List.Forall_cons; [intros ?; cbn [snd] | each_handler] ].

Ltac appends_only_step :=
  lazymatch goal with
  | |- appends_only _ (fun s => ?m s) => change (appends_only m)
  | |- appends_only _ (get notes_file ≫= _) =>
      first [ apply appends_only_write
            | eapply (appends_only_bind _ (get notes_file ≫= _));
              [apply appends_only_write | intros ?] ]
  | |- appends_only _ (_ ≫= _) => apply appends_only_bind; [|intros ?]
  | |- appends_only _ (ret _) => apply appends_only_ret
  | |- appends_only _ (raise _) => apply appends_only_raise
  | |- appends_only _ (lift _) => apply appends_only_lift
  | |- appends_only _ (may_raise _) => apply appends_only_may_raise
  | |- appends_only _ (get _) => apply appends_only_get
  | |- appends_only _ (attr _ _) => apply appends_only_attr
  | |- appends_only _ (logger _ _ _) => apply appends_only_logger
  | |- appends_only _ (assign _) =>
      apply appends_only_assign; intros []; reflexivity
  | |- appends_only _ (write_file _ _) =>
      apply appends_only_write_file; reflexivity
  | |- appends_only _ (remove_if_exists _ _) =>
      apply appends_only_remove; reflexivity
  | |- appends_only _ (try_except _ _) =>
      apply appends_only_try; [|each_handler]
  | |- appends_only _ (match ?x with _ => _ end) => destruct x
  | |- appends_only _ (if ?x then _ else _) => destruct x
  | |- appends_only _ (set_result_label_text _) => unfold set_result_label_text
  | |- appends_only _ result_label_text => unfold result_label_text
  | |- appends_only _ (set_camera_image_texture _) =>
      unfold set_camera_image_texture
  | |- appends_only _ (camera_read _ _) => unfold camera_read
  | |- appends_only _ (listen_and_recognize _) => unfold listen_and_recognize
  end.

Lemma save_note_appends_only (spare : str -> Prop) (env : note_env)
      (source text : str) :
  appends_only spare (save_note env source text).
Proof.
  unfold save_note. apply appends_only_try.
  - intros s.
    assert (H : (path ← get notes_file;
                 append_text (append_error env) path
                             (note_line (now env) source text) ;;
                 logger INFO "Note saved from %s: %s"
                        [VStr source; VStr (take 50 text)]) s
                = ((path ← get notes_file;
                    append_text (append_error env) path
                                (note_line (now env) source text)) ;;
                   logger INFO "Note saved from %s: %s"
                          [VStr source; VStr (take 50 text)]) s)
      by reflexivity.
    rewrite H. apply appends_only_bind;
      [apply appends_only_write | intros ?; apply appends_only_logger].
  - each_handler. repeat appends_only_step.
Qed.

(** [play_tts] writes and removes its temporary audio file and touches no
    other. *)
Lemma play_tts_appends_only (env : audio_env) (text : str) :
  appends_only (eq (audio_file env)) (play_tts env text).
Proof.
  unfold play_tts, audio_file. cbv zeta. repeat appends_only_step.
Qed.

Lemma update_camera_appends_only (env : tick_env) :
  appends_only (fun _ => False) (update_camera env).
Proof.
  unfold update_camera.
  repeat first [ apply save_note_appends_only | appends_only_step ].
Qed.

Lemma audio_iteration_appends_only (env : audio_env) :
  appends_only (eq (audio_file env)) (audio_iteration env).
Proof.
  unfold audio_iteration.
  repeat first [ apply save_note_appends_only | apply play_tts_appends_only
               | appends_only_step ].
Qed.

Lemma grows_apart_from_more (spare spare' : str -> Prop) (s s' : State) :
  (forall path, spare path -> spare' path) ->
  grows_apart_from spare s s' -> grows_apart_from spare' s s'.
Proof.
  intros Hsub (Hn & Hother & Hpre). repeat split; [exact Hn | |].
  - intros path Hs. apply Hother. intros H. apply Hs, Hsub, H.
  - intros path old Hs. apply Hpre. intros H. apply Hs, Hsub, H.
Qed.

(** X6. The pipelines never shorten, replace or delete a file, the
    temporary audio file of [play_tts] apart: after a tick every file is
    still there with its previous text as a prefix, and no file other than
    the one [notes_file] names has changed; the same holds after an
    iteration of the speech loop, and after any run of the loop, for every
    file that does not have the name of a temporary audio file of these
    iterations. That file itself is written over and removed: a file
    ["tts_1715949045.mp3"] that is there before an utterance is spoken at
    that second is gone afterwards. *)
Theorem pipelines_only_append_to_notes :
  (forall env s, grows s (snd (update_camera env s))) /\
  (forall env s,
      grows_apart_from (eq (audio_file env)) s (snd (audio_iteration env s))) /\
  (forall envs s,
      grows_apart_from (audio_files envs) s (snd (audio_loop envs s))) /\
  (forall t, audio_file_name t = lit "tts_" ++ dec (Z.of_N t) ++ lit ".mp3") /\
  (let s := with_file (lit "tts_1715949045.mp3") (lit "RIFF") speaking_session in
   let env := attempt_answered (Return (lit "good morning")) in
   audio_file env = lit "tts_1715949045.mp3" /\
   files s !! lit "tts_1715949045.mp3" = Some (lit "RIFF") /\
   files (snd (audio_iteration env s)) !! lit "tts_1715949045.mp3" = None).
Proof.
  split; [exact update_camera_appends_only|].
  split; [exact audio_iteration_appends_only|].
  split; [|split; [reflexivity | repeat split; vm_compute; reflexivity]].
  induction envs as [|env envs IH]; intros s.
  - apply grows_refl.
  - cbn [audio_loop]. unfold mbind, M_bind, bind.
    pose proof (audio_iteration_appends_only env s) as Hfirst.
    destruct (audio_iteration env s) as [[u|e] s1]; cbn [snd] in *.
    + eapply grows_trans.
      * eapply grows_apart_from_more; [|exact Hfirst].
        intros path <-. exists env. split; [now left | reflexivity].
      * eapply grows_apart_from_more; [|apply IH].
        intros path (env' & Hin & ->). exists env'. split; [now right | reflexivity].
    + eapply grows_apart_from_more; [|exact Hfirst].
      intros path <-. exists env. split; [now left | reflexivity].
Qed.

(** ** The OCR tick when the capture fails *)

(** X7. When the flag is on and the opened camera raises on [read], or
    Tesseract raises on the frame, the tick returns with ["Camera Error: "]
    and the error text on the results widget and one [ERROR] record in the
    log; the files and the displayed frame stay as they were. *)
Theorem capture_error_is_reported (env : tick_env) (s : State) (e : exn)
        (old : str) :
  running (self s) = true ->
  camera (self s) = Some true ->
  capture_raises env s e ->
  results_buffer s = Some old ->
  update_camera env s =
    (Return tt,
     mkState (set_result_label (Some (lit "Camera Error: " ++ exn_str e)) (self s))
             (files s)
             (log s ++ [LogRecord ERROR "Camera update error: %s"
                                  [VStr (exn_str e)]])) /\
  displayed (snd (update_camera env s)) = displayed s /\
  notes_log (snd (update_camera env s)) = notes_log s.
Proof.
  intros Hrun Hcam Hfail Hold. unfold results_buffer in Hold.
  assert (H : update_camera env s =
    (Return tt,
     mkState (set_result_label (Some (lit "Camera Error: " ++ exn_str e)) (self s))
             (files s)
             (log s ++ [LogRecord ERROR "Camera update error: %s"
                                  [VStr (exn_str e)]]))).
  { unfold update_camera, camera_read. run. rewrite Hrun, Hcam.
    destruct Hfail as [Hread|(frame & Hread & Hocr)].
    - rewrite Hread. simpl. rewrite Hold. reflexivity.
    - rewrite Hread. simpl. rewrite Hocr. simpl. rewrite Hold. reflexivity. }
  rewrite H. unfold displayed, notes_log. destruct (self s); auto.
Qed.

Lemma capture_error_is_reported_witness :
  results_buffer
    (snd (update_camera
            (mkTickEnv (Raise permission_denied) (tesseract_reads [])
                       (mkNoteEnv noon None))
            english_session))
  = Some (lit "Camera Error: " ++ exn_str permission_denied).
Proof.
  destruct (capture_error_is_reported
              (mkTickEnv (Raise permission_denied) (tesseract_reads [])
                         (mkNoteEnv noon None))
              english_session permission_denied [])
    as (Hrun & _).
  - vm_compute. reflexivity.
  - vm_compute. reflexivity.
  - left. reflexivity.
  - vm_compute. reflexivity.
  - rewrite Hrun. reflexivity.
Defined.

(** X8. When the flag is on and the camera object delivers no frame, because
    its handle is not opened (never opened, or released) or because [read]
    answers [ret = False], the tick only logs the warning
    ["Failed to capture frame"]: no file, no widget and no attribute
    changes, and nothing is reported on the results widget. *)
Theorem missing_frame_only_warns (env : tick_env) (s : State) (handle : bool) :
  running (self s) = true ->
  camera (self s) = Some handle ->
  handle = false \/ read env = Return None ->
  update_camera env s =
    (Return tt,
     mkState (self s) (files s)
             (log s ++ [LogRecord WARNING "Failed to capture frame" []])).
Proof.
  intros Hrun Hcam Hnone. unfold update_camera, camera_read. run.
  rewrite Hrun, Hcam.
  destruct Hnone as [->|Hread]; [reflexivity|].
  destruct handle; [now rewrite Hread | reflexivity].
Qed.

Lemma missing_frame_only_warns_witness :
  self (snd (update_camera
               (mkTickEnv (Return None) (tesseract_reads [])
                          (mkNoteEnv noon None))
               english_session))
  = self english_session.
Proof.
  rewrite (missing_frame_only_warns
             (mkTickEnv (Return None) (tesseract_reads []) (mkNoteEnv noon None))
             english_session true).
  - reflexivity.
  - vm_compute. reflexivity.
  - vm_compute. reflexivity.
  - right. reflexivity.
Defined.

(** ** The controls *)

(** X9. [stop_app] clears the running flag, releases the camera if there
    is a camera object, logs that the application stopped and touches no
    file; then it calls [stop] on the running application. While the
    application is the running one, as it is from [__init__] on, the call
    returns, with the timer stopped and no running application left. When
    there is no running application, as at a second call, [stop_app] has
    done the same to flag, camera and log, and raises [AttributeError] on
    [None]. In both cases a tick and an iteration of the speech loop do
    nothing at all from then on, and even with the flag forced on again the
    released camera yields only the capture warning. *)
Theorem stop_app_silences_pipelines (s : State) :
  (running_app (self s) = true ->
   fst (stop_app s) = Return tt /\
   scheduled (self (snd (stop_app s))) = false /\
   running_app (self (snd (stop_app s))) = false) /\
  (running_app (self s) = false ->
   fst (stop_app s)
   = Raise (Exn AttributeError (lit "'NoneType' object has no attribute 'stop'"))) /\
  fst (stop_app (snd (stop_app s)))
  = Raise (Exn AttributeError (lit "'NoneType' object has no attribute 'stop'")) /\
  running (self (snd (stop_app s))) = false /\
  camera (self (snd (stop_app s)))
  = match camera (self s) with Some _ => Some false | None => None end /\
  files (snd (stop_app s)) = files s /\
  log (snd (stop_app s)) = log s ++ [LogRecord INFO "Application stopped" []] /\
  (forall tick, update_camera tick (snd (stop_app s))
                = (Return tt, snd (stop_app s))) /\
  (forall attempt, audio_iteration attempt (snd (stop_app s))
                   = (Return tt, snd (stop_app s))) /\
  (forall tick,
      camera (self s) <> None ->
      update_camera tick (with_running true (snd (stop_app s)))
      = (Return tt,
         mkState (self (with_running true (snd (stop_app s))))
                 (files s)
                 (log (snd (stop_app s))
                  ++ [LogRecord WARNING "Failed to capture frame" []]))).
Proof.
  assert (Hoff : running (self (snd (stop_app s))) = false)
    by apply stop_app_clears_running.
  split; [|split; [|split; [|split; [exact Hoff|split; [|split; [|split;
    [|split; [|split]]]]]]]].
  - unfold stop_app, stop_running_app. run.
    destruct s as [a fs lg]; destruct a; simpl. intros ->.
    now destruct camera0.
  - unfold stop_app, stop_running_app. run.
    destruct s as [a fs lg]; destruct a; simpl. intros ->.
    now destruct camera0.
  - unfold stop_app, stop_running_app. run.
    destruct s as [a fs lg]; destruct a; simpl.
    now destruct camera0, running_app0.
  - unfold stop_app, stop_running_app. run.
    destruct s as [a fs lg]; destruct a; simpl.
    now destruct camera0, running_app0.
  - unfold stop_app, stop_running_app. run.
    destruct s as [a fs lg]; destruct a; simpl.
    now destruct camera0, running_app0.
  - unfold stop_app, stop_running_app. run.
    destruct s as [a fs lg]; destruct a; simpl.
    now destruct camera0, running_app0.
  - intros tick. now apply update_camera_paused.
  - intros attempt. now apply audio_iteration_paused.
  - intros tick Hcam. unfold update_camera, camera_read, stop_app,
      stop_running_app. run.
    destruct s as [a fs lg]; destruct a; simpl in *.
    destruct camera0; [|congruence]. now destruct running_app0.
Qed.

Lemma stop_app_silences_pipelines_witness :
  fst (stop_app english_session) = Return tt /\
  fst (stop_app (snd (stop_app english_session)))
  = Raise (Exn AttributeError (lit "'NoneType' object has no attribute 'stop'")).
Proof.
  destruct (stop_app_silences_pipelines english_session)
    as (Hfirst & _ & Hsecond & _).
  split; [|exact Hsecond].
  destruct Hfirst as (Hret & _); [vm_compute; reflexivity | exact Hret].
Defined.

(** *** What a pipeline asks of the services *)

Lemma bind_ext {A B} (m : M A) (k k' : A -> M B) (s : State) :
  (forall a s1, m s = (Return a, s1) -> k a s1 = k' a s1) ->
  (m ≫= k) s = (m ≫= k') s.
Proof.
  intros H. unfold mbind, M_bind, bind.
  destruct (m s) as [[a|e] s1]; [now apply H | reflexivity].
Qed.

Lemma bind_ext_left {A B} (m m' : M A) (k : A -> M B) (s : State) :
  m s = m' s -> (m ≫= k) s = (m' ≫= k) s.
Proof. intros H. unfold mbind, M_bind, bind. now rewrite H. Qed.

Lemma try_except_ext (body body' : M unit)
      (hs : list (clause * (exn -> M unit))) (s : State) :
  body s = body' s -> try_except body hs s = try_except body' hs s.
Proof. intros H. unfold try_except. now rewrite H. Qed.

Lemma returns_keeps_language {A} (m : M A) (s s1 : State) (a : A) (l : val) :
  stable (fun x => language x = l) m ->
  language (self s) = l ->
  m s = (Return a, s1) ->
  language (self s1) = l.
Proof. intros Hst Hl H. specialize (Hst s Hl). now rewrite H in Hst. Qed.

Ltac language_kept H :=
  eapply returns_keeps_language; [ | | exact H];
  [invariant | first [reflexivity | assumption]].

Lemma save_note_keeps_language (env : note_env) (source text : str) (l : val) :
  stable (fun a => language a = l) (save_note env source text).
Proof. unfold save_note. invariant. Qed.

(** A tick asks Tesseract for the model of the stored language only. *)
Lemma update_camera_ext (env env' : tick_env) (s : State) :
  read env = read env' ->
  tick_note env = tick_note env' ->
  (forall frame,
      image_to_string env frame (lang_code (language (self s)))
      = image_to_string env' frame (lang_code (language (self s)))) ->
  update_camera env s = update_camera env' s.
Proof.
  intros Hread Hnote Hocr. unfold update_camera, camera_read.
  rewrite !bind_get. cbv beta.
  destruct (running (self s)); [|reflexivity].
  destruct (camera (self s)) as [handle|]; [|reflexivity].
  apply try_except_ext. rewrite Hread, Hnote.
  apply bind_ext. intros [frame|] s1 H1; [|reflexivity].
  assert (Hs1 : s1 = s).
  { destruct handle; unfold lift, ret, mret, M_ret in H1;
      [destruct (read env') as [r|e]|]; congruence. }
  subst s1. rewrite !bind_get. cbv beta. now rewrite Hocr.
Qed.

(** [play_tts] asks the synthesis for the voice of the stored language
    only. *)
Lemma play_tts_ext (env env' : audio_env) (text : str) (s : State) :
  same_voice (tts env) (tts env') (tts_lang (language (self s))) ->
  play_tts env text s = play_tts env' text s.
Proof.
  intros (Htime & Hplay & Hremove & Hgtts & Hsave).
  unfold play_tts. cbv zeta. apply try_except_ext. rewrite !bind_get. cbv beta.
  now rewrite Htime, Hplay, Hremove, Hgtts, Hsave.
Qed.

(** An iteration of the speech loop asks the speech service for the stored
    language only, and the synthesis for its voice. *)
Lemma audio_iteration_ext (env env' : audio_env) (s : State) :
  listen_error env = listen_error env' ->
  audio_note env = audio_note env' ->
  recognize_google env (language (self s))
  = recognize_google env' (language (self s)) ->
  same_voice (tts env) (tts env') (tts_lang (language (self s))) ->
  audio_iteration env s = audio_iteration env' s.
Proof.
  intros Hmic Hnote Hrec Hvoice. unfold audio_iteration, listen_and_recognize.
  rewrite !bind_get. cbv beta.
  destruct (negb (running (self s))); [reflexivity|].
  apply try_except_ext. rewrite Hmic, Hnote.
  apply bind_ext. intros [] s1 H1.
  assert (Hl1 : language (self s1) = language (self s)) by language_kept H1.
  rewrite !bind_get. cbv beta. rewrite Hl1, Hrec.
  apply bind_ext. intros text s2 H2.
  assert (Hl2 : language (self s2) = language (self s)) by language_kept H2.
  apply bind_ext_left. destruct (nonempty text); [|reflexivity].
  apply bind_ext. intros [] s3 H3.
  assert (Hl3 : language (self s3) = language (self s)) by language_kept H3.
  apply bind_ext. intros old s4 H4.
  assert (Hl4 : language (self s4) = language (self s)) by language_kept H4.
  apply bind_ext. intros [] s5 H5.
  assert (Hl5 : language (self s5) = language (self s)) by language_kept H5.
  rewrite !bind_get. cbv beta.
  destruct (truthy (tts_enabled (self s5))); [|reflexivity].
  apply play_tts_ext. now rewrite Hl5.
Qed.

Lemma set_language_fields (v : val) (a : App) :
  language (set_language v a) = v /\
  running (set_language v a) = running a /\
  camera (set_language v a) = camera a /\
  notes_file (set_language v a) = notes_file a /\
  result_label (set_language v a) = result_label a /\
  camera_image (set_language v a) = camera_image a.
Proof. destruct a. repeat split. Qed.

Lemma selected_code (text : str) :
  lang_code (VStr (selected_tag text))
  = (if str_eqb text (lit "Amharic") then lit "amh" else lit "eng").
Proof.
  unfold selected_tag. destruct (str_eqb text (lit "Amharic"));
    vm_compute; reflexivity.
Qed.

Lemma selected_voice (text : str) :
  tts_lang (VStr (selected_tag text))
  = (if str_eqb text (lit "Amharic") then lit "am" else lit "en").
Proof.
  unfold selected_tag. destruct (str_eqb text (lit "Amharic"));
    vm_compute; reflexivity.
Qed.

(** X10. Choosing a language stores one of the two tags, [am-ET] for the
    selector text ["Amharic"] and [en-US] for every other text, and changes
    nothing else but the log. From the next call on, a tick asks Tesseract
    for [amh] or [eng] accordingly: what the tick does is the same for two
    Tesseracts that agree on that model, and the text read with that model
    is the one that reaches the results widget. An iteration of the speech
    loop asks the speech service for the stored tag, and [play_tts] asks the
    synthesis for [am] or [en]: what they do is the same for two services
    that agree there, the transcript for the stored tag is the one that
    reaches the results widget, and a synthesis that fails for that voice
    is the error [play_tts] logs. *)
Theorem set_language_selects_models (text : str) (s : State) :
  set_language_cb text s =
    (Return tt,
     mkState (set_language (VStr (selected_tag text)) (self s)) (files s)
             (log s ++ [LogRecord INFO "Language changed to %s"
                                  [VStr (selected_tag text)]])) /\
  language (self (snd (set_language_cb text s))) = VStr (selected_tag text) /\
  (selected_tag text = lit "am-ET" \/ selected_tag text = lit "en-US") /\
  (forall env env',
      read env = read env' ->
      tick_note env = tick_note env' ->
      (forall frame,
          image_to_string env frame
            (if str_eqb text (lit "Amharic") then lit "amh" else lit "eng")
          = image_to_string env' frame
              (if str_eqb text (lit "Amharic") then lit "amh" else lit "eng")) ->
      update_camera env (snd (set_language_cb text s))
      = update_camera env' (snd (set_language_cb text s))) /\
  (forall env frame raw old img p,
      running (self s) = true ->
      camera (self s) = Some true ->
      notes_file (self s) = VStr p ->
      results_buffer s = Some old ->
      displayed s = Some img ->
      read env = Return (Some frame) ->
      image_to_string env frame
        (if str_eqb text (lit "Amharic") then lit "amh" else lit "eng")
      = Return raw ->
      nonempty (strip raw) = true ->
      results_buffer (snd (update_camera env (snd (set_language_cb text s))))
      = Some (result_block (lit "Camera Text:") (strip raw)
                (trailing_context (append_error (tick_note env)) old))) /\
  (forall env env',
      listen_error env = listen_error env' ->
      audio_note env = audio_note env' ->
      recognize_google env (VStr (selected_tag text))
      = recognize_google env' (VStr (selected_tag text)) ->
      same_voice (tts env) (tts env')
                 (if str_eqb text (lit "Amharic") then lit "am" else lit "en") ->
      audio_iteration env (snd (set_language_cb text s))
      = audio_iteration env' (snd (set_language_cb text s))) /\
  (forall env transcript old p,
      running (self s) = true ->
      notes_file (self s) = VStr p ->
      results_buffer s = Some old ->
      listen_error env = None ->
      recognize_google env (VStr (selected_tag text)) = Return transcript ->
      nonempty transcript = true ->
      results_buffer (snd (audio_iteration env (snd (set_language_cb text s))))
      = Some (result_block (lit "Audio Text:") transcript
                (trailing_context (append_error (audio_note env)) old))) /\
  (forall env env' spoken,
      same_voice (tts env) (tts env')
                 (if str_eqb text (lit "Amharic") then lit "am" else lit "en") ->
      play_tts env spoken (snd (set_language_cb text s))
      = play_tts env' spoken (snd (set_language_cb text s))) /\
  (forall env spoken e,
      gtts_error (tts env) spoken
                 (if str_eqb text (lit "Amharic") then lit "am" else lit "en")
      = Some e ->
      play_tts env spoken (snd (set_language_cb text s))
      = (Return tt,
         mkState (self (snd (set_language_cb text s)))
                 (files (snd (set_language_cb text s)))
                 (log (snd (set_language_cb text s))
                  ++ [LogRecord ERROR "TTS error: %s" [VStr (exn_str e)]]))).
Proof.
  assert (Heq : set_language_cb text s =
    (Return tt,
     mkState (set_language (VStr (selected_tag text)) (self s)) (files s)
             (log s ++ [LogRecord INFO "Language changed to %s"
                                  [VStr (selected_tag text)]]))).
  { unfold set_language_cb, selected_tag. run.
    destruct (self s). reflexivity. }
  rewrite Heq. cbn [snd].
  set (s' := mkState (set_language (VStr (selected_tag text)) (self s)) (files s)
                     (log s ++ [LogRecord INFO "Language changed to %s"
                                          [VStr (selected_tag text)]])).
  destruct (set_language_fields (VStr (selected_tag text)) (self s))
    as (Hlang & Hrun & Hcam & Hnotes & Hlabel & Himage).
  assert (Hlang' : language (self s') = VStr (selected_tag text)) by exact Hlang.
  split; [reflexivity|]. split; [exact Hlang'|].
  split; [unfold selected_tag; destruct (str_eqb text (lit "Amharic")); auto|].
  split; [|split; [|split; [|split; [|split]]]].
  - intros env env' Hread Hnote Hocr. apply update_camera_ext; try assumption.
    rewrite Hlang', selected_code. exact Hocr.
  - intros env frame raw old img p Hon Hopen Hp Hold Himg Hread Hocr Hne.
    assert (Hev : camera_event env s'
                  = Some (mkEvent Camera (strip raw) (now (tick_note env)))).
    { unfold camera_event. cbn [self s']. rewrite Hrun, Hcam, Hon, Hopen, Hread.
      rewrite Hlang, selected_code, Hocr, Hne. reflexivity. }
    refine (proj2 (proj2 (proj2 (camera_event_effect env s' _ p old img
                                   _ _ _ Hev)))).
    + cbn [self s']. now rewrite Hnotes.
    + unfold results_buffer in *. cbn [self s']. now rewrite Hlabel.
    + unfold displayed in *. cbn [self s']. now rewrite Himage.
  - intros env env' Hmic Hnote Hrec Hvoice. apply audio_iteration_ext;
      try assumption; rewrite Hlang'; [exact Hrec|].
    rewrite selected_voice. exact Hvoice.
  - intros env transcript old p Hon Hp Hold Hmic Hrec Hne.
    assert (Hev : audio_event env s'
                  = Some (mkEvent Audio transcript (now (audio_note env)))).
    { unfold audio_event. cbn [self s']. rewrite Hrun, Hon, Hmic, Hlang, Hrec, Hne.
      reflexivity. }
    refine (proj2 (proj2 (proj2 (audio_event_effect env s' _ p old
                                   _ _ Hev)))).
    + cbn [self s']. now rewrite Hnotes.
    + unfold results_buffer in *. cbn [self s']. now rewrite Hlabel.
  - intros env env' spoken Hvoice. apply play_tts_ext.
    rewrite Hlang', selected_voice. exact Hvoice.
  - intros env spoken e Hfail. unfold play_tts. cbv zeta.
    unfold try_except. rewrite !bind_get. cbv beta.
    rewrite Hlang', selected_voice. unfold mbind, M_bind, bind.
    rewrite Hfail. reflexivity.
Qed.

Lemma set_language_selects_models_witness :
  results_buffer
    (snd (update_camera (tick_reading (lit "HELLO") None)
                        (snd (set_language_cb (lit "English") english_session))))
  = Some (result_block (lit "Camera Text:") (lit "HELLO") []).
Proof.
  destruct (set_language_selects_models (lit "English") english_session)
    as (_ & _ & _ & _ & Hocr & _).
  apply (Hocr (tick_reading (lit "HELLO") None) frame_1x2 (lit "HELLO") [] None
              (lit "notes.txt")); vm_compute; reflexivity.
Defined.

Lemma stop_label_is_not_start_label :
  str_eqb (lit " Stop Audio") (lit " Start Audio") = false.
Proof. vm_compute. reflexivity. Qed.

Lemma start_label_is_start_label :
  str_eqb (lit " Start Audio") (lit " Start Audio") = true.
Proof. vm_compute. reflexivity. Qed.

Lemma toggle_audio_result (s : State) (label : str) :
  audio_btn (self s) = Some label ->
  toggle_audio s =
    (Return tt,
     mkState
       (if str_eqb label (lit " Start Audio")
        then set_running true (set_audio_btn (Some (lit " Stop Audio")) (self s))
        else set_running false
               (set_audio_btn (Some (lit " Start Audio")) (self s)))
       (files s) (log s)).
Proof.
  intros Hbtn. unfold toggle_audio, mbind, M_bind, bind, attr. rewrite Hbtn.
  destruct (str_eqb label (lit " Start Audio")); reflexivity.
Qed.

(** X11. Once the audio button exists, a press always returns and changes
    only the flag and the label, and it leaves them in step: on with
    [" Stop Audio"] or off with [" Start Audio"]. From a state in step,
    every press flips the flag, so two presses restore flag and label. *)
Theorem toggle_keeps_flag_and_label_in_step (s : State) (label : str) :
  audio_btn (self s) = Some label ->
  fst (toggle_audio s) = Return tt /\
  files (snd (toggle_audio s)) = files s /\
  log (snd (toggle_audio s)) = log s /\
  results_buffer (snd (toggle_audio s)) = results_buffer s /\
  in_step (self (snd (toggle_audio s))) /\
  (in_step (self s) ->
   running (self (snd (toggle_audio s))) = negb (running (self s)) /\
   running (self (snd (toggle_audio (snd (toggle_audio s))))) = running (self s) /\
   audio_btn (self (snd (toggle_audio (snd (toggle_audio s)))))
   = audio_btn (self s)).
Proof.
  intros Hbtn. rewrite (toggle_audio_result s label Hbtn).
  cbn [fst snd files log]. unfold results_buffer, in_step. cbn [self].
  split; [reflexivity|]. split; [reflexivity|]. split; [reflexivity|].
  split; [now destruct (str_eqb _ _), (self s)|].
  split; [destruct (str_eqb _ _), (self s); simpl; auto|].
  intros [[Hon Hlab]|[Hoff Hlab]]; rewrite Hlab in Hbtn; injection Hbtn as <-.
  - rewrite stop_label_is_not_start_label.
    erewrite toggle_audio_result by (cbn [self]; now destruct (self s)).
    rewrite start_label_is_start_label. cbn [snd self].
    destruct (self s); simpl in *. subst. auto.
  - rewrite start_label_is_start_label.
    erewrite toggle_audio_result by (cbn [self]; now destruct (self s)).
    rewrite stop_label_is_not_start_label. cbn [snd self].
    destruct (self s); simpl in *. subst. auto.
Qed.

Lemma toggle_keeps_flag_and_label_in_step_witness :
  in_step (self (snd (toggle_audio english_session))) /\
  running (self (snd (toggle_audio (snd (toggle_audio english_session)))))
  = true.
Proof.
  destruct (toggle_keeps_flag_and_label_in_step english_session
              (lit "Start Audio")) as (_ & _ & _ & _ & Hstep & _).
  - vm_compute. reflexivity.
  - split; [exact Hstep|].
    destruct (toggle_keeps_flag_and_label_in_step
                (snd (toggle_audio english_session)) (lit " Start Audio"))
      as (_ & _ & _ & _ & _ & Hflip).
    + vm_compute. reflexivity.
    + destruct (Hflip Hstep) as [-> _]. vm_compute. reflexivity.
Defined.

(** ** The speech loop *)

(** X12. A recognized utterance is recorded whatever the synthesis does.
    With a [str] notes file, a successful append and an existing results
    widget, the iteration returns with the block displayed; the log gains
    the note record, then what [play_tts] logged, then the success record;
    the files are the ones with the note appended, as [play_tts] leaves
    them. The note is in the notes file unless that file has the name of the
    temporary audio file. [play_tts] runs only when [tts_enabled] is truthy,
    with the voice [am] for [am-ET] and [en] otherwise. When all of it works
    the temporary audio file is gone afterwards and nothing is logged; when
    [gTTS] raises no file is written; when [save] raises what it wrote so
    far is left behind, and when playback or the removal raises the audio
    file is left behind; every failure costs one [ERROR] record. *)
Theorem utterance_recorded_whatever_tts_does
        (env : audio_env) (s : State) (text p old : str) :
  running (self s) = true ->
  listen_error env = None ->
  recognize_google env (language (self s)) = Return text ->
  nonempty text = true ->
  notes_file (self s) = VStr p ->
  append_error (audio_note env) = None ->
  results_buffer s = Some old ->
  let noted :=
    <[p := default [] (files s !! p)
            ++ note_line (now (audio_note env)) (lit "Audio") text]> (files s) in
  let voice := if eq_str (language (self s)) (lit "am-ET")
               then lit "am" else lit "en" in
  let mp3 := lit "tts_" ++ dec (Z.of_N (tts_time (tts env))) ++ lit ".mp3" in
  let failed e := [LogRecord ERROR "TTS error: %s" [VStr (exn_str e)]] in
  exists fs' lg,
    audio_iteration env s =
      (Return tt,
       mkState
         (set_result_label (Some (result_block (lit "Audio Text:") text old))
                           (self s))
         fs'
         (log s
          ++ [LogRecord INFO "Note saved from %s: %s"
                        [VStr (lit "Audio"); VStr (take 50 text)]]
          ++ lg
          ++ [LogRecord INFO "Audio recognition successful: %s" [VStr text]])) /\
    (truthy (tts_enabled (self s)) = false \/ mp3 <> p ->
     fs' !! p = Some (default [] (files s !! p)
                      ++ note_line (now (audio_note env)) (lit "Audio") text)) /\
    (truthy (tts_enabled (self s)) = false -> fs' = noted /\ lg = []) /\
    (truthy (tts_enabled (self s)) = true ->
     match gtts_error (tts env) text voice with
     | Some e => fs' = noted /\ lg = failed e
     | None =>
         match tts_save (tts env) text voice with
         | SaveRaised e None => fs' = noted /\ lg = failed e
         | SaveRaised e (Some partial) =>
             fs' = <[mp3 := partial]> noted /\ lg = failed e
         | Saved audio =>
             match playback_error (tts env), remove_error (tts env) with
             | Some e, _ => fs' = <[mp3 := audio]> noted /\ lg = failed e
             | None, Some e => fs' = <[mp3 := audio]> noted /\ lg = failed e
             | None, None => fs' = delete mp3 noted /\ lg = []
             end
         end
     end).
Proof.
  intros Hrun Hmic Hrec Hne Hp Hok Hold noted voice mp3 failed.
  unfold results_buffer in Hold.
  exists (fst (after_tts env s text noted)), (snd (after_tts env s text noted)).
  split; [now apply listen_records|].
  split; [|split].
  - intros Hspare. rewrite after_tts_spares by exact Hspare.
    apply lookup_insert_eq.
  - intros Hoff. unfold after_tts. rewrite Hoff. split; reflexivity.
  - intros Hon. unfold after_tts. rewrite Hon. unfold tts_outcome.
    change (tts_lang (language (self s))) with voice.
    change (audio_file_name (tts_time (tts env))) with mp3. cbv zeta.
    destruct (gtts_error (tts env) text voice) as [e|]; [split; reflexivity|].
    destruct (tts_save (tts env) text voice) as [audio|e [partial|]];
      try (split; reflexivity).
    destruct (playback_error (tts env)) as [e|]; [split; reflexivity|].
    destruct (remove_error (tts env)) as [e|]; split; reflexivity.
Qed.

Lemma utterance_recorded_whatever_tts_does_witness :
  exists fs' lg,
    snd (audio_iteration
           (mkAudioEnv None (fun _ => Return (lit "good morning"))
                       (mkNoteEnv noon None) tts_unreachable)
           speaking_session)
    = mkState
        (set_result_label
           (Some (result_block (lit "Audio Text:") (lit "good morning") []))
           (self speaking_session))
        fs'
        (log speaking_session
         ++ [LogRecord INFO "Note saved from %s: %s"
                       [VStr (lit "Audio"); VStr (lit "good morning")]]
         ++ lg
         ++ [LogRecord INFO "Audio recognition successful: %s"
                       [VStr (lit "good morning")]]) /\
    fs' !! lit "notes.txt"
    = Some (note_line noon (lit "Audio") (lit "good morning")).
Proof.
  destruct (utterance_recorded_whatever_tts_does
              (mkAudioEnv None (fun _ => Return (lit "good morning"))
                          (mkNoteEnv noon None) tts_unreachable)
              speaking_session (lit "good morning") (lit "notes.txt") [])
    as (fs' & lg & Hrun & Hnote & _).
  - vm_compute. reflexivity.
  - reflexivity.
  - reflexivity.
  - reflexivity.
  - vm_compute. reflexivity.
  - reflexivity.
  - vm_compute. reflexivity.
  - exists fs', lg. split.
    + rewrite Hrun. reflexivity.
    + etransitivity; [apply Hnote; right; vm_compute; discriminate|].
      vm_compute. reflexivity.
Defined.

(** X13. When the speech service answers with an empty transcript, the
    iteration records nothing: no note, no block, no synthesis; it only
    logs the success record and returns. *)
Theorem empty_transcript_is_only_logged (env : audio_env) (s : State) :
  running (self s) = true ->
  listen_error env = None ->
  recognize_google env (language (self s)) = Return [] ->
  audio_event env s = None /\
  audio_iteration env s =
    (Return tt,
     mkState (self s) (files s)
             (log s ++ [LogRecord INFO "Audio recognition successful: %s"
                                  [VStr []]])).
Proof.
  intros Hrun Hmic Hrec. split.
  - unfold audio_event. now rewrite Hrun, Hmic, Hrec.
  - rewrite audio_iteration_running by assumption.
    unfold listen_and_recognize. run. rewrite Hmic. simpl. now rewrite Hrec.
Qed.

Lemma empty_transcript_is_only_logged_witness :
  self (snd (audio_iteration (attempt_answered (Return [])) english_session))
  = self english_session.
Proof.
  destruct (empty_transcript_is_only_logged (attempt_answered (Return []))
                                            english_session) as [_ ->].
  - vm_compute. reflexivity.
  - reflexivity.
  - reflexivity.
  - reflexivity.
Defined.

(** X14. When the microphone block raises anything but the two recognition
    errors (a listen timeout, a missing device), the service is not asked,
    the iteration returns with ["Audio Error: "] and the error text on the
    results widget and the record ["Audio loop error"] in the log, no file
    changes, and the loop goes on. *)
Theorem microphone_failure_is_reported (env : audio_env) (s : State) (e : exn)
        (old : str) :
  microphone_fails env s e ->
  results_buffer s = Some old ->
  audio_event env s = None /\
  audio_iteration env s =
    (Return tt,
     mkState (set_result_label (Some (lit "Audio Error: " ++ exn_str e)) (self s))
             (files s)
             (log s ++ [LogRecord ERROR "Audio loop error: %s"
                                  [VStr (exn_str e)]])) /\
  (forall rest,
      audio_loop (env :: rest) s
      = audio_loop rest
          (mkState
             (set_result_label (Some (lit "Audio Error: " ++ exn_str e)) (self s))
             (files s)
             (log s ++ [LogRecord ERROR "Audio loop error: %s"
                                  [VStr (exn_str e)]]))).
Proof.
  intros (Hrun & Hmic & Hnot1 & Hnot2) Hold. unfold results_buffer in Hold.
  assert (H : audio_iteration env s =
    (Return tt,
     mkState (set_result_label (Some (lit "Audio Error: " ++ exn_str e)) (self s))
             (files s)
             (log s ++ [LogRecord ERROR "Audio loop error: %s"
                                  [VStr (exn_str e)]]))).
  { rewrite audio_iteration_running by assumption.
    unfold listen_and_recognize. run. rewrite Hmic. simpl.
    unfold catches. destruct (exn_class_of e); try congruence;
      simpl; rewrite Hold; reflexivity. }
  split; [|split; [exact H|intros rest; now apply audio_loop_next]].
  unfold audio_event. now rewrite Hrun, Hmic.
Qed.

Lemma microphone_failure_is_reported_witness :
  results_buffer
    (snd (audio_iteration
            (mkAudioEnv (Some (Exn WaitTimeoutError (lit "listening timed out")))
                        (fun _ => Return (lit "unused"))
                        (mkNoteEnv noon None) tts_works)
            english_session))
  = Some (lit "Audio Error: " ++ lit "listening timed out").
Proof.
  destruct (microphone_failure_is_reported
              (mkAudioEnv (Some (Exn WaitTimeoutError (lit "listening timed out")))
                          (fun _ => Return (lit "unused"))
                          (mkNoteEnv noon None) tts_works)
              english_session
              (Exn WaitTimeoutError (lit "listening timed out")) [])
    as (_ & -> & _).
  - repeat split; try discriminate; vm_compute; reflexivity.
  - vm_compute. reflexivity.
  - reflexivity.
Defined.

(** ** The results buffer and the notes file over time *)

(** X15. The results buffer does not grow with the history: after an event
    it holds at most the event's text plus 215 characters (label, separators
    and 200 characters of context), whatever it held before. *)
Theorem results_buffer_is_bounded (s : State) (p old : str) :
  notes_file (self s) = VStr p ->
  results_buffer s = Some old ->
  (forall env ev img,
      displayed s = Some img ->
      camera_event env s = Some ev ->
      exists buffer,
        results_buffer (snd (update_camera env s)) = Some buffer /\
        length buffer <= length (ev_text ev) + 215) /\
  (forall env ev,
      audio_event env s = Some ev ->
      exists buffer,
        results_buffer (snd (audio_iteration env s)) = Some buffer /\
        length buffer <= length (ev_text ev) + 215).
Proof.
  intros Hp Hold. split.
  - intros env ev img Himg Hev.
    destruct (camera_event_effect env s ev p old img Hp Hold Himg Hev)
      as (_ & _ & _ & Hbuf).
    eexists. split; [exact Hbuf|]. unfold result_block.
    rewrite !length_app, length_take.
    change (length (lit "Camera Text:")) with 12.
    change (length nl) with 1. lia.
  - intros env ev Hev.
    destruct (audio_event_effect env s ev p old Hp Hold Hev)
      as (_ & _ & _ & Hbuf).
    eexists. split; [exact Hbuf|]. unfold result_block.
    rewrite !length_app, length_take.
    change (length (lit "Audio Text:")) with 11.
    change (length nl) with 1. lia.
Qed.

Lemma results_buffer_is_bounded_witness :
  exists buffer,
    results_buffer
      (snd (update_camera (tick_reading (lit "HELLO") None) english_session))
    = Some buffer /\
    length buffer <= length (ev_text hello_event) + 215.
Proof.
  destruct (results_buffer_is_bounded english_session (lit "notes.txt") [])
    as [Hcamera _].
  - vm_compute. reflexivity.
  - vm_compute. reflexivity.
  - apply (Hcamera (tick_reading (lit "HELLO") None) hello_event None).
    + vm_compute. reflexivity.
    + vm_compute. reflexivity.
Defined.









(** ** Trimmed OCR text *)

Lemma lstrip_head (s : str) (c : N) (t : str) :
  lstrip s = c :: t -> isspace c = false.
Proof.
  induction s as [|x s IH]; simpl; [discriminate|].
  destruct (isspace x) eqn:Hx; [exact IH|].
  intros [= <- _]. exact Hx.
Qed.

Lemma lstrip_suffix (s : str) :
  exists w, s = w ++ lstrip s /\ Forall (fun c => isspace c = true) w.
Proof.
  induction s as [|x s (w & IH & Hw)]; simpl; [exists []; now split|].
  destruct (isspace x) eqn:Hx.
  - exists (x :: w). simpl. split; [now rewrite <- IH | now constructor].
  - exists []. now split.
Qed.

Lemma rstrip_prefix (s : str) :
  exists w, s = rstrip s ++ w /\ Forall (fun c => isspace c = true) w.
Proof.
  unfold rstrip. destruct (lstrip_suffix (rev s)) as (w & Hw & Hspace).
  exists (rev w). split.
  - rewrite <- rev_app_distr, <- Hw. now rewrite rev_involutive.
  - apply List.Forall_forall. intros c Hc. apply List.in_rev in Hc.
    exact (proj1 (List.Forall_forall _ _) Hspace c Hc).
Qed.

Lemma rstrip_last (s : str) (t : str) (c : N) :
  rstrip s = t ++ [c] -> isspace c = false.
Proof.
  unfold rstrip. intros H.
  apply (f_equal (@rev N)) in H. rewrite rev_involutive, rev_app_distr in H.
  simpl in H. now apply lstrip_head in H.
Qed.

(** [strip] cuts white space, and only white space, from both ends. *)
Lemma strip_cuts_white_space (raw : str) :
  exists before after,
    raw = before ++ strip raw ++ after /\
    Forall (fun c => isspace c = true) before /\
    Forall (fun c => isspace c = true) after /\
    (forall c rest, strip raw = c :: rest -> isspace c = false) /\
    (forall front c, strip raw = front ++ [c] -> isspace c = false).
Proof.
  destruct (lstrip_suffix raw) as (before & Hb & Hbefore).
  destruct (rstrip_prefix (lstrip raw)) as (after & Ha & Hafter).
  exists before, after. split; [|split; [exact Hbefore|split; [exact Hafter|split]]].
  - unfold strip. now rewrite <- Ha.
  - intros c rest H. unfold strip in H. rewrite H in Ha.
    now apply (lstrip_head raw c (rest ++ after)).
  - intros front c H. now apply (rstrip_last (lstrip raw) front c).
Qed.

(** X17. What a tick writes is Tesseract's text without the white space at
    its ends, and without anything else missing: the text [raw] that
    Tesseract returns is some white space, then a text that neither starts
    nor ends with white space, then some white space, and it is that middle
    text which [update_camera] puts into the block on the results widget
    and, when the append works, into the line it adds to the notes file.
    When the middle text is empty the tick writes neither. *)
Theorem camera_text_is_trimmed (env : tick_env) (s : State) (frame : Frame)
        (raw p old : str) (img : option Texture) :
  ocr_capture env s frame raw ->
  notes_file (self s) = VStr p ->
  results_buffer s = Some old ->
  displayed s = Some img ->
  exists before text after,
    raw = before ++ text ++ after /\
    Forall (fun c => isspace c = true) before /\
    Forall (fun c => isspace c = true) after /\
    (forall c rest, text = c :: rest -> isspace c = false) /\
    (forall front c, text = front ++ [c] -> isspace c = false) /\
    (text = [] ->
     files (snd (update_camera env s)) = files s /\
     results_buffer (snd (update_camera env s)) = Some old) /\
    (text <> [] ->
     results_buffer (snd (update_camera env s))
     = Some (lit "Camera Text:" ++ nl ++ text ++ nl ++ nl
             ++ take 200 (trailing_context (append_error (tick_note env)) old)) /\
     (append_error (tick_note env) = None ->
      files (snd (update_camera env s)) !! p
      = Some (default [] (files s !! p)
              ++ lit "[" ++ strftime (now (tick_note env)) ++ lit "] "
              ++ lit "Camera" ++ lit ": " ++ text ++ nl))).
Proof.
  intros Hcap Hp Hold Himg.
  destruct (strip_cuts_white_space raw)
    as (before & after & Hraw & Hbefore & Hafter & Hfirst & Hlast).
  exists before, (strip raw), after.
  split; [exact Hraw|]. split; [exact Hbefore|]. split; [exact Hafter|].
  split; [exact Hfirst|]. split; [exact Hlast|].
  unfold results_buffer, displayed in *. split.
  - intros Hblank.
    rewrite (update_camera_blank env s frame raw img Hcap Hblank Himg).
    cbn [snd files self]. split; [reflexivity|].
    destruct (self s); simpl in *. exact Hold.
  - intros Hsome.
    assert (Hne : nonempty (strip raw) = true)
      by (destruct (strip raw); [congruence|reflexivity]).
    assert (Hev : camera_event env s
                  = Some (mkEvent Camera (strip raw) (now (tick_note env)))).
    { destruct Hcap as (Hrun & Hcam & Hread & Hocr). unfold camera_event.
      now rewrite Hrun, Hcam, Hread, Hocr, Hne. }
    split.
    + exact (proj2 (proj2 (proj2 (camera_event_effect env s _ p old img
                                    Hp Hold Himg Hev)))).
    + intros Hok.
      rewrite (update_camera_records env s frame raw p old img)
        by assumption.
      cbn [snd files]. apply lookup_insert_eq.
Qed.

Lemma camera_text_is_trimmed_witness :
  exists before text after,
    lit " HELLO" ++ nl = before ++ text ++ after /\
    Forall (fun c => isspace c = true) before /\
    Forall (fun c => isspace c = true) after /\
    (forall c rest, text = c :: rest -> isspace c = false) /\
    (text <> [] ->
     results_buffer
       (snd (update_camera (tick_reading (lit " HELLO" ++ nl) None)
                           english_session))
     = Some (lit "Camera Text:" ++ nl ++ text ++ nl ++ nl)).
Proof.
  destruct (camera_text_is_trimmed (tick_reading (lit " HELLO" ++ nl) None)
              english_session frame_1x2 (lit " HELLO" ++ nl) (lit "notes.txt")
              [] None)
    as (before & text & after & Hraw & Hb & Ha & Hfirst & _ & _ & Hwritten).
  - repeat split; vm_compute; reflexivity.
  - vm_compute. reflexivity.
  - vm_compute. reflexivity.
  - vm_compute. reflexivity.
  - exists before, text, after. repeat split; try assumption.
    intros Hsome. destruct (Hwritten Hsome) as [Hbuf _]. rewrite Hbuf.
    now rewrite app_nil_r.
Defined.

(** ** Configuration failures in [__init__] *)

(** X18. Every failure [load_config] meets inside [__init__] ends the
    construction of the application: the handler logs the error and then
    raises [AttributeError] on the result widget, which does not exist yet.
    This holds for an unreadable or unparsable file, for a document that is
    not a JSON object, and for a default file that cannot be written. *)
Theorem config_failure_is_fatal (env : boot_env) (fs : gmap str str) :
  config_fails (boot_config env) fs ->
  fst (init env (start fs)) = Raise (no_attribute "result_label") /\
  results_buffer (snd (init env (start fs))) = None /\
  exists msg,
    log (snd (init env (start fs)))
    = [LogRecord ERROR "Config load error: %s" [VStr msg]].
Proof.
  unfold config_fails. intros Hfail. rewrite init_from_initialised.
  unfold load_config, config_get, write_json, results_buffer. run.
  destruct (fs !! CONFIG_FILE) as [content|]; simpl.
  - destruct (json_load (boot_config env) content) as [v|e]; simpl.
    + destruct v; try (now destruct Hfail); simpl; eauto.
    + eauto.
  - destruct (json_dump_error (boot_config env)) as [e|]; simpl;
      [eauto | now destruct Hfail].
Qed.

Lemma config_failure_is_fatal_witness :
  fst (init read_only_directory (start ∅)) = Raise (no_attribute "result_label").
Proof.
  apply config_failure_is_fatal. vm_compute. discriminate.
Defined.
